(** * Binance kline collector: archive discovery, fetch and merge

    A shallow embedding of [scripts/binance_data_collector(2).py]
    (class [BinanceDataCollector]) and the properties of its merge,
    fetch, locator and orchestration code.

    Conventions of the embedding.
    - A pandas cell is a [value]; numeric cells carry an exact rational
      ([Q]); float64 rounding is not modelled.  NaN is [VNaN].
    - A [DataFrame] is a list of column names and a list of rows, each
      row a list of cells aligned with the column names.
    - pandas' text-to-number parser and its sorting routine (default
      [kind='quicksort'], whose tie order pandas does not promise) are
      parameters of the development: what is proved of the merge holds
      for every routine that returns the rows rearranged in ascending
      order.  Two insertion sorts and a parser of integers are given for
      evaluation.
    - The file system, the network and the clock are explicit: a [FS]
      value is threaded through the code, the network answers are an
      oracle indexed by URL and attempt number, the clock readings are
      arguments.
    - Paths are texts.  [pathlib]'s [/] and the path [zipfile] extracts
      a member to are two functions of the member name, which agree on
      plain names only.  A file is found under the text it was written
      under: [..] and symbolic links are not followed on lookup. *)

From Stdlib Require Import ZArith QArith Qround Lqa Lia List Bool String Ascii.
From Stdlib Require Import Sorting.Sorted Sorting.Permutation.
From Stdlib Require Import DecimalString DecimalPos DecimalZ.
Import ListNotations.

Open Scope string_scope.
Open Scope list_scope.
Open Scope Z_scope.

(* ================================================================= *)
(** ** Cells and frames *)

Inductive value : Type :=
| VNum (q : Q)          (* int64 / float64 cell *)
| VStr (s : string)     (* object cell holding text *)
| VNaN                  (* missing / NaN / NaT *)
| VTime (ms : Q).       (* datetime64[ns, UTC]: an instant, in epoch ms *)

Definition row := list value.

Record DataFrame : Type := mkDF {
  df_columns : list string;
  df_rows : list row
}.

(** Position of a column name. *)
Fixpoint index_of (c : string) (cols : list string) : option nat :=
  match cols with
  | [] => None
  | c' :: cs =>
      if String.eqb c c' then Some 0%nat
      else option_map S (index_of c cs)
  end.

(** [df[c]] read at one row; a missing column or a short row reads NaN. *)
Definition cell (cols : list string) (c : string) (r : row) : value :=
  match index_of c cols with
  | Some i => nth i r VNaN
  | None => VNaN
  end.

Fixpoint set_nth (i : nat) (v : value) (r : row) : row :=
  match i, r with
  | _, [] => []
  | O, _ :: r' => v :: r'
  | S i', x :: r' => x :: set_nth i' v r'
  end.

(** [df[c] = f(df[c'])], row by row: an existing column is overwritten in
    place, a new one is appended as the last column. *)
Definition assign_column (c : string) (f : row -> value) (df : DataFrame)
  : DataFrame :=
  match index_of c (df_columns df) with
  | Some i =>
      mkDF (df_columns df) (map (fun r => set_nth i (f r) r) (df_rows df))
  | None => mkDF (df_columns df ++ [c]) (map (fun r => r ++ [f r]) (df_rows df))
  end.

(** [df[cols]]: projection on a list of column names, in that order. *)
Definition select_columns (cols : list string) (df : DataFrame) : DataFrame :=
  mkDF cols
       (map (fun r => map (fun c => cell (df_columns df) c r) cols) (df_rows df)).

(** [df[mask]] *)
Definition select_rows (mask : row -> bool) (df : DataFrame) : DataFrame :=
  mkDF (df_columns df) (filter mask (df_rows df)).

(** [pd.concat(dfs, ignore_index=True)] for frames that share their columns
    (all of them come from [read_csv] with the same [names]). *)
Definition concat (dfs : list DataFrame) : DataFrame :=
  mkDF (match dfs with [] => [] | d :: _ => df_columns d end)
       (flat_map df_rows dfs).

(* ----------------------------------------------------------------- *)
(** *** Order and equality of cells *)

(** Numeric cells are ordered by value; everything else sorts last
    ([na_position='last']). *)
Definition value_leb (a b : value) : bool :=
  match a, b with
  | VNum x, VNum y => Qle_bool x y
  | VNum _, _ => true
  | _, VNum _ => false
  | _, _ => true
  end.

Definition value_le (a b : value) : Prop := value_leb a b = true.

(** Equality of cells as [duplicated] sees it (NaN equals NaN). *)
Definition value_eqb (a b : value) : bool :=
  match a, b with
  | VNum x, VNum y => Qeq_bool x y
  | VStr s, VStr t => String.eqb s t
  | VNaN, VNaN => true
  | VTime x, VTime y => Qeq_bool x y
  | _, _ => false
  end.

(** Strict numeric order of two cells. *)
Definition value_lt (a b : value) : Prop :=
  match a, b with
  | VNum x, VNum y => (x < y)%Q
  | _, _ => False
  end.

(** [df.drop_duplicates(subset=c, keep='first')]: a row is kept when no
    earlier row carries an equal cell in column [c]. *)
Fixpoint drop_dups (key : row -> value) (seen : list value) (rows : list row)
  : list row :=
  match rows with
  | [] => []
  | r :: rs =>
      if existsb (value_eqb (key r)) seen then drop_dups key seen rs
      else r :: drop_dups key (key r :: seen) rs
  end.

Definition drop_duplicates (c : string) (df : DataFrame) : DataFrame :=
  mkDF (df_columns df) (drop_dups (cell (df_columns df) c) [] (df_rows df)).

(* ================================================================= *)
(** ** Files *)

(** What a file holds: the lines of a delimited text file, cell by cell,
    or bytes that no CSV reader accepts.  A [VTime] cell of a written file
    stands for the text pandas prints for that instant. *)
Inductive file : Type :=
| Csv (lines : list (list value))
| Garbage.

Record FS : Type := mkFS {
  fs_dirs : list string;
  fs_files : list (string * file)
}.

Fixpoint fs_lookup (p : string) (files : list (string * file)) : option file :=
  match files with
  | [] => None
  | (p', f) :: rest => if String.eqb p p' then Some f else fs_lookup p rest
  end.

Definition dir_exists (d : string) (fs : FS) : bool :=
  existsb (String.eqb d) (fs_dirs fs).

(** [Path.mkdir(exist_ok=True)] *)
Definition mkdir (d : string) (fs : FS) : FS :=
  if dir_exists d fs then fs else mkFS (d :: fs_dirs fs) (fs_files fs).

Definition write_file (p : string) (f : file) (fs : FS) : FS :=
  mkFS (fs_dirs fs) ((p, f) :: fs_files fs).

(** [s.split("/")] *)
Fixpoint split_slash (s : string) : list string :=
  match s with
  | EmptyString => [EmptyString]
  | String c s' =>
      if Ascii.eqb c "/" then EmptyString :: split_slash s'
      else match split_slash s' with
           | [] => [String c EmptyString]
           | x :: xs => String c x :: xs
           end
  end.

(** ["/".join(parts)] *)
Fixpoint join_slash (parts : list string) : string :=
  match parts with
  | [] => EmptyString
  | x :: rest =>
      match rest with
      | [] => x
      | _ :: _ => (x ++ "/" ++ join_slash rest)%string
      end
  end.

(** The parts [pathlib] keeps of the text of a path: empty components and
    [.] are dropped, [..] stays. *)
Definition path_parts (s : string) : list string :=
  filter (fun x => negb (String.eqb x "" || String.eqb x ".")) (split_slash s).

(** The number of slashes a text begins with. *)
Fixpoint leading_slashes (s : string) : nat :=
  match s with
  | EmptyString => O
  | String c s' => if Ascii.eqb c "/" then S (leading_slashes s') else O
  end.

(** The root of a POSIX path: two leading slashes are kept as they are,
    any other number of them is one slash; a relative path has none. *)
Definition path_root (s : string) : string :=
  match leading_slashes s with
  | O => ""
  | 2%nat => "//"
  | _ => "/"
  end.

(** A root and parts written out: ["."] for the path without either. *)
Definition path_text (root : string) (parts : list string) : string :=
  match parts with
  | [] => if String.eqb root "" then "." else root
  | _ :: _ => (root ++ join_slash parts)%string
  end.

(** [str(Path(s))] *)
Definition pure_path (s : string) : string :=
  path_text (path_root s) (path_parts s).

(** [str(Path(d) / name)]: the parts of a relative [name] follow those of
    [d]; an absolute [name] takes the place of [d]. *)
Definition path_join (d name : string) : string :=
  if (leading_slashes name =? 0)%nat
  then path_text (path_root d) (path_parts d ++ path_parts name)
  else path_text (path_root name) (path_parts name).

(** [s.endswith("/")] *)
Fixpoint ends_in_slash (s : string) : bool :=
  match s with
  | EmptyString => false
  | String c s' =>
      match s' with
      | EmptyString => Ascii.eqb c "/"
      | String _ _ => ends_in_slash s'
      end
  end.

(** [os.path.join(a, b)] *)
Definition os_path_join (a b : string) : string :=
  if (0 <? leading_slashes b)%nat then b
  else if String.eqb a "" || ends_in_slash a then (a ++ b)%string
  else (a ++ "/" ++ b)%string.

(** The loop of [os.path.normpath] over the components; [new_comps] holds
    those kept so far, the last one first. *)
Fixpoint norm_comps (initial_slashes : bool) (comps new_comps : list string)
  : list string :=
  match comps with
  | [] => rev new_comps
  | comp :: rest =>
      if String.eqb comp "" || String.eqb comp "."
      then norm_comps initial_slashes rest new_comps
      else if negb (String.eqb comp "..")
      then norm_comps initial_slashes rest (comp :: new_comps)
      else match new_comps with
           | [] =>
               if initial_slashes then norm_comps initial_slashes rest []
               else norm_comps initial_slashes rest [comp]
           | top :: below =>
               if String.eqb top ".."
               then norm_comps initial_slashes rest (comp :: new_comps)
               else norm_comps initial_slashes rest below
           end
  end.

(** [os.path.normpath(path)] *)
Definition normpath (path : string) : string :=
  if String.eqb path "" then "."
  else
    let root := path_root path in
    path_text root
              (norm_comps (negb (String.eqb root "")) (split_slash path) []).

(** A component that is neither empty nor [.] nor [..]. *)
Definition plain_part (x : string) : bool :=
  negb (String.eqb x "" || String.eqb x "." || String.eqb x "..").

(** The parts [ZipFile.extract] keeps of a member name: empty components
    (so every leading slash), [.] and [..] are dropped. *)
Definition arcname_parts (name : string) : list string :=
  filter plain_part (split_slash name).

(** Where [ZipFile.extract(name, Path(d))] puts the member:
    [normpath(join(targetpath, arcname))]. *)
Definition extract_path (d name : string) : string :=
  normpath (os_path_join (pure_path d) (join_slash (arcname_parts name))).

(** The texts in front of the slashes of a path, the shortest first. *)
Fixpoint dirs_above (p : string) : list string :=
  match p with
  | EmptyString => []
  | String c p' =>
      (if Ascii.eqb c "/" then [EmptyString] else [])
      ++ map (String c) (dirs_above p')
  end.

(** The directories [os.makedirs(os.path.dirname(target))] makes sure of:
    those above the target, but for the root and for [..], which are
    there whatever the state. *)
Definition upper_dirs (target : string) : list string :=
  filter (fun x => match rev (path_parts x) with
                   | [] => false
                   | last :: _ => negb (String.eqb last "..")
                   end)
         (dirs_above target).

Definition makedirs (dirs : list string) (fs : FS) : FS :=
  fold_left (fun fs' d => mkdir d fs') dirs fs.

(** [z.extract(name, Path(d))] for a member that holds [f]: the directories
    above the target are made, the member is written (the target is taken
    to be writable). *)
Definition extract (d name : string) (f : file) (fs : FS) : FS :=
  write_file (extract_path d name) f
             (makedirs (upper_dirs (extract_path d name)) fs).

(** A path that both [pathlib] and [zipfile] take as it is: no component
    is empty, [.] or [..]; such a path is relative. *)
Definition plain_name (name : string) : bool :=
  forallb plain_part (split_slash name).

(** [shutil.rmtree(d)]: the directory and everything below it. *)
Definition rmtree (d : string) (fs : FS) : FS :=
  mkFS (filter (fun d' => negb (String.eqb d d') && negb (prefix (d ++ "/") d'))
               (fs_dirs fs))
       (filter (fun pf => negb (prefix (d ++ "/") (fst pf))) (fs_files fs)).

(** A line without any field is a blank line. *)
Definition is_blank (cells : list value) : bool :=
  match cells with [] => true | _ :: _ => false end.

(** The number of fields the parser expects on a line: that of the first
    line, and one per name at least. *)
Definition table_width (names : list string) (lines : list (list value)) : nat :=
  match lines with
  | [] => List.length names
  | l :: _ => Nat.max (List.length l) (List.length names)
  end.

(** One line read: filled with NaN up to the width; the fields in front
    of those that take the names make the index, which [concat] drops. *)
Definition read_line (names : list string) (width : nat) (cells : list value)
  : row :=
  skipn (width - List.length names)
        (cells ++ repeat VNaN (width - List.length cells)).

(** [pd.read_csv(path, names=names, header=None)].  Blank lines are
    skipped.  A file without any line gives a frame without rows.  A first
    line with more fields than there are names moves the surplus leading
    fields to the index.  [None] stands for the exception the caller
    catches: a missing or undecodable file, a line with more fields than
    expected. *)
Definition read_csv (fs : FS) (path : string) (names : list string)
  : option DataFrame :=
  match fs_lookup path (fs_files fs) with
  | Some (Csv lines) =>
      let lines := filter (fun l => negb (is_blank l)) lines in
      let width := table_width names lines in
      if forallb (fun l => (List.length l <=? width)%nat) lines
      then Some (mkDF names (map (read_line names width) lines))
      else None
  | Some Garbage => None
  | None => None
  end.

(** [df.to_csv(path, index=False)]: a header line, then the rows. *)
Definition to_csv (path : string) (df : DataFrame) (fs : FS) : FS :=
  write_file path (Csv (map VStr (df_columns df) :: df_rows df)) fs.

(* ================================================================= *)
(** ** Reference implementations of the pandas routines taken as parameters *)

(** Insertion sort on a key; [before a b] decides whether a new row with
    key [a] is placed in front of a row with key [b]. *)
Fixpoint insert_with (before : value -> value -> bool) (key : row -> value)
  (x : row) (l : list row) : list row :=
  match l with
  | [] => [x]
  | y :: l' =>
      if before (key x) (key y) then x :: l
      else y :: insert_with before key x l'
  end.

Fixpoint sort_with (before : value -> value -> bool) (key : row -> value)
  (l : list row) : list row :=
  match l with
  | [] => []
  | x :: l' => insert_with before key x (sort_with before key l')
  end.

(** An insertion sort that leaves rows of equal key in their order of
    arrival. *)
Definition stable_sort : (row -> value) -> list row -> list row :=
  sort_with value_leb.

(** An insertion sort that lists later arrivals first among rows of
    equal key. *)
Definition reversing_sort : (row -> value) -> list row -> list row :=
  sort_with (fun a b => negb (value_leb b a)).

Definition is_digit (c : ascii) : bool :=
  (48 <=? nat_of_ascii c)%nat && (nat_of_ascii c <=? 57)%nat.

Fixpoint digits_value (s : string) (acc : Z) : option Z :=
  match s with
  | EmptyString => Some acc
  | String c s' =>
      if is_digit c
      then digits_value s' (10 * acc + (Z.of_nat (nat_of_ascii c) - 48))
      else None
  end.

(** A text-to-number parser that accepts plain decimal integers only. *)
Definition parse_integer (s : string) : option Q :=
  match s with
  | EmptyString => None
  | String "-" EmptyString => None
  | String "-" s' => option_map (fun z => inject_Z (- z)) (digits_value s' 0)
  | _ => option_map inject_Z (digits_value s 0)
  end.

(* ================================================================= *)
(** ** The merge stage: [merge_csv_files] *)

Definition columns : list string :=
  ["open_time"; "open"; "high"; "low"; "close"; "volume";
   "close_time"; "quote_volume"; "trades"; "taker_buy_base";
   "taker_buy_quote"; "ignore"].

Definition min_timestamp : Z := 1230768000000.

(** [int((datetime.now() + timedelta(days=365)).timestamp() * 1000)], with
    the clock given as [now_ms], the whole milliseconds since the epoch
    (one UTC offset is assumed for both instants). *)
Definition max_timestamp (now_ms : Z) : Z := now_ms + 365 * 86400 * 1000.

Definition notna (v : value) : bool :=
  match v with VNaN => false | _ => true end.

(** [series >= z] and [series <= z], cell by cell; NaN compares false. *)
Definition num_geb (v : value) (z : Z) : bool :=
  match v with VNum q => Qle_bool (inject_Z z) q | _ => false end.

Definition num_leb (v : value) (z : Z) : bool :=
  match v with VNum q => Qle_bool q (inject_Z z) | _ => false end.

(** [pd.to_datetime(series, unit='ms', utc=True)], cell by cell: the
    instant that many milliseconds after the epoch, in UTC. *)
Definition to_datetime (v : value) : value :=
  match v with VNum q => VTime q | _ => VNaN end.

Section Merge.

(** pandas' parser of numbers written as text, used by [to_numeric]. *)
Variable parse_numeric : string -> option Q.

(** pandas' row sort on one key column, used by [sort_values]. *)
Variable sort_rows : (row -> value) -> list row -> list row.

(** [pd.to_numeric(series, errors='coerce')], cell by cell. *)
Definition to_numeric (v : value) : value :=
  match v with
  | VNum q => VNum q
  | VStr s => match parse_numeric s with Some q => VNum q | None => VNaN end
  | VNaN => VNaN
  | VTime _ => VNaN
  end.

(** [df.sort_values(c).reset_index(drop=True)] *)
Definition sort_values (c : string) (df : DataFrame) : DataFrame :=
  mkDF (df_columns df) (sort_rows (cell (df_columns df) c) (df_rows df)).

(** The mask of lines 183-187, at one row. *)
Definition valid_mask (cols : list string) (now_ms : Z) (r : row) : bool :=
  notna (cell cols "open_time" r)
  && num_geb (cell cols "open_time" r) min_timestamp
  && num_leb (cell cols "open_time" r) (max_timestamp now_ms).

(** Line 174. *)
Definition coerce_open_time (df : DataFrame) : DataFrame :=
  assign_column "open_time"
    (fun r => to_numeric (cell (df_columns df) "open_time" r)) df.

(** Lines 206-210. *)
Definition add_datetime (df : DataFrame) : DataFrame :=
  let df1 := assign_column "datetime"
               (fun r => to_datetime (cell (df_columns df) "open_time" r)) df in
  let cols := ["datetime"; "open_time"]
              ++ filter (fun col => negb (existsb (String.eqb col)
                                            ["datetime"; "open_time"]))
                        (df_columns df1) in
  select_columns cols df1.

(** Lines 167-193: the rows of all frames, coerced and filtered. *)
Definition validated (now_ms : Z) (dfs : list DataFrame) : DataFrame :=
  let merged_df := concat dfs in
  let merged_df := coerce_open_time merged_df in
  select_rows (valid_mask (df_columns merged_df) now_ms) merged_df.

(** Lines 167-210: from the frames read to the frame written. *)
Definition merge_frames (now_ms : Z) (dfs : list DataFrame) : DataFrame :=
  let merged_df := validated now_ms dfs in
  let merged_df := sort_values "open_time" merged_df in
  let merged_df := drop_duplicates "open_time" merged_df in
  add_datetime merged_df.

(** Lines 154-160: the files that parse, in the order given. *)
Definition read_all (fs : FS) (csv_files : list string) : list DataFrame :=
  flat_map (fun p => match read_csv fs p columns with
                     | Some df => [df]
                     | None => []
                     end) csv_files.

(** [merge_csv_files(csv_files, output_filename)]: the frame returned
    ([None] for Python's [None]) and the file system left behind. *)
Definition merge_csv_files (now_ms : Z) (csv_files : list string)
  (output_filename : string) (fs : FS) : option DataFrame * FS :=
  match read_all fs csv_files with
  | [] => (None, fs)
  | dfs =>
      let merged_df := merge_frames now_ms dfs in
      (Some merged_df, to_csv output_filename merged_df fs)
  end.

End Merge.

(* ================================================================= *)
(** ** The locator: [get_zip_links] and [generate_urls_by_pattern] *)

(** What a Python call comes to: a value, an exception that leaves the
    function, or the embedding's loop bound reached. *)
Inductive outcome (A : Type) : Type :=
| Returned (a : A)
| Raised
| OutOfFuel.

Arguments Returned {A} a.
Arguments Raised {A}.
Arguments OutOfFuel {A}.

(** A naive [datetime.datetime]. *)
Record datetime : Type := mkDT {
  year : Z; month : Z; day : Z;
  hour : Z; minute : Z; second : Z; microsecond : Z
}.

Definition is_leap (y : Z) : bool :=
  ((y mod 4 =? 0) && negb (y mod 100 =? 0)) || (y mod 400 =? 0).

Definition days_in_month (y m : Z) : Z :=
  if m =? 2 then (if is_leap y then 29 else 28)
  else if (m =? 4) || (m =? 6) || (m =? 9) || (m =? 11) then 30
  else 31.

(** [datetime(y, m, d)]: [None] is the [ValueError] raised outside
    [MINYEAR..MAXYEAR] = 1..9999 or for an impossible month or day. *)
Definition make_datetime (y m d : Z) : option datetime :=
  if (1 <=? y) && (y <=? 9999) && (1 <=? m) && (m <=? 12)
     && (1 <=? d) && (d <=? days_in_month y m)
  then Some (mkDT y m d 0 0 0 0)
  else None.

Fixpoint lex_leb (a b : list Z) : bool :=
  match a, b with
  | [], _ => true
  | _ :: _, [] => false
  | x :: a', y :: b' => (x <? y) || ((x =? y) && lex_leb a' b')
  end.

Definition dt_fields (d : datetime) : list Z :=
  [year d; month d; day d; hour d; minute d; second d; microsecond d].

(** [a <= b] on naive datetimes. *)
Definition dt_leb (a b : datetime) : bool := lex_leb (dt_fields a) (dt_fields b).

(** [str(n)] for an integer. *)
Definition str_of_Z (n : Z) : string := NilZero.string_of_int (Z.to_int n).

(** [s.zfill(2)] for an unsigned [s]. *)
Definition zfill2 (s : string) : string :=
  if (String.length s <? 2)%nat
  then (if (String.length s <? 1)%nat then "00" else ("0" ++ s)%string)
  else s.

Definition s3_base : string :=
  "https://s3-ap-northeast-1.amazonaws.com/data.binance.vision".

(** Lines 86-90: the URL generated for one month. *)
Definition month_url (symbol interval : string) (y m : Z) : string :=
  let filename :=
    (symbol ++ "-" ++ interval ++ "-" ++ str_of_Z y ++ "-" ++ zfill2 (str_of_Z m)
     ++ ".zip")%string in
  (s3_base ++ "/data/spot/monthly/klines/" ++ symbol ++ "/" ++ interval ++ "/"
   ++ filename)%string.

Definition start_year (symbol : string) : Z :=
  if String.eqb symbol "BTCUSDT" then 2017 else 2018.

(** The [while] loop of lines 85-98. *)
Fixpoint generate_loop (fuel : nat) (symbol interval : string)
  (end_date current : datetime) (zip_links : list string)
  : outcome (list string) :=
  match fuel with
  | O => OutOfFuel
  | S fuel' =>
      if dt_leb current end_date then
        let zip_links' :=
          zip_links ++ [month_url symbol interval (year current) (month current)] in
        let next :=
          if month current =? 12 then make_datetime (year current + 1) 1 1
          else make_datetime (year current) (month current + 1) 1 in
        match next with
        | Some current' =>
            generate_loop fuel' symbol interval end_date current' zip_links'
        | None => Raised
        end
      else Returned zip_links
  end.

(** [generate_urls_by_pattern()], with [now] the reading of
    [datetime.now()].  The loop bound covers every month up to the end of
    the year of [now]. *)
Definition generate_urls_by_pattern (symbol interval : string) (now : datetime)
  : outcome (list string) :=
  match make_datetime (start_year symbol) 1 1 with
  | Some current =>
      generate_loop (S (Z.to_nat ((year now - start_year symbol + 1) * 12)))
                    symbol interval now current []
  | None => Raised
  end.

(** The [Key] child of one [Contents] element of the listing. *)
Inductive xml_key : Type :=
| KeyMissing              (* [find] returns [None] *)
| KeyNoText               (* a [Key] element whose [text] is [None] *)
| KeyText (s : string).

(** The answer to the listing request: a failure (network error, error
    status, XML that does not parse), or a document, given by the
    [Contents] elements found with the S3 namespace and without it. *)
Inductive listing : Type :=
| ListingFails
| ListingDoc (qualified plain : list xml_key).

Definition ends_with (suffix s : string) : bool :=
  (String.length suffix <=? String.length s)%nat
  && String.eqb (substring (String.length s - String.length suffix)
                           (String.length suffix) s) suffix.

(** The [for content in root.findall(...)] loops; [None] is the
    [AttributeError] of [None.endswith]. *)
Fixpoint zip_keys (contents : list xml_key) : option (list string) :=
  match contents with
  | [] => Some []
  | KeyMissing :: rest => zip_keys rest
  | KeyNoText :: _ => None
  | KeyText s :: rest =>
      match zip_keys rest with
      | Some l =>
          Some (if ends_with ".zip" s
                then (s3_base ++ "/" ++ s)%string :: l
                else l)
      | None => None
      end
  end.

Fixpoint insert_string (s : string) (l : list string) : list string :=
  match l with
  | [] => [s]
  | t :: l' => if String.leb s t then s :: l else t :: insert_string s l'
  end.

(** [sorted(strings)] *)
Definition sorted (l : list string) : list string :=
  fold_right insert_string [] l.

(** [get_zip_links()] *)
Definition get_zip_links (symbol interval : string) (answer : listing)
  (now : datetime) : outcome (list string) :=
  let fallback := generate_urls_by_pattern symbol interval now in
  match answer with
  | ListingFails => fallback
  | ListingDoc qualified plain =>
      match zip_keys qualified with
      | None => fallback
      | Some [] =>
          match zip_keys plain with
          | None => fallback
          | Some zip_links => Returned (sorted zip_links)
          end
      | Some zip_links => Returned (sorted zip_links)
      end
  end.

(* ================================================================= *)
(** ** The fetcher: [download_and_extract] *)

Inductive body : Type :=
| NotZip                                  (* [ZipFile] raises *)
| Zip (members : list (string * file)).   (* member names and contents *)

(** The answer to one request for an archive. *)
Inductive response : Type :=
| NoResponse                              (* timeout, connection error *)
| Response (status_code : Z) (content : body).

Inductive event : Type :=
| Request (url : string)
| Sleep (ms : Z).

(** The state the run acts on: the file system and the trace of requests
    and pauses, oldest first. *)
Record World : Type := mkWorld {
  w_fs : FS;
  w_trace : list event
}.

Definition emit (e : event) (w : World) : World :=
  mkWorld (w_fs w) (w_trace w ++ [e]).

Definition on_fs (f : FS -> FS) (w : World) : World :=
  mkWorld (f (w_fs w)) (w_trace w).

Definition network := string -> nat -> response.

(** What [z.extract(name, ...)] finds under a name: of several members of
    one name the archive's directory keeps the last; [f] is the content of
    a member of that name already met. *)
Fixpoint last_named (name : string) (f : file) (members : list (string * file))
  : file :=
  match members with
  | [] => f
  | (name', f') :: rest =>
      last_named name (if String.eqb name' name then f' else f) rest
  end.

(** The loop [for filename in z.namelist()] up to its first name that ends
    in [.csv], with the content extracted under that name. *)
Fixpoint first_csv (members : list (string * file)) : option (string * file) :=
  match members with
  | [] => None
  | (name, f) :: rest =>
      if ends_with ".csv" name then Some (name, last_named name f rest)
      else first_csv rest
  end.

(** The body of [for attempt in range(retries)], over the attempts left. *)
Fixpoint download_attempts (net : network) (temp_dir url : string) (retries : nat)
  (attempts : list nat) (w : World) : option string * World :=
  match attempts with
  | [] => (None, w)
  | attempt :: rest =>
      let w1 := emit (Request url) w in
      let retry_or_give_up :=
        if Z.of_nat attempt <? Z.of_nat retries - 1
        then download_attempts net temp_dir url retries rest (emit (Sleep 2000) w1)
        else (None, w1) in
      match net url attempt with
      | NoResponse => retry_or_give_up
      | Response status_code content =>
          if status_code =? 404 then (None, w1)
          else if (400 <=? status_code) && (status_code <? 600) then
            (* [raise_for_status] raises [HTTPError] *)
            if negb (status_code =? 404) then retry_or_give_up else (None, w1)
          else
            match content with
            | NotZip => retry_or_give_up
            | Zip members =>
                match first_csv members with
                | Some (filename, f) =>
                    (Some (path_join temp_dir filename),
                     on_fs (extract temp_dir filename f) w1)
                | None => (None, w1)
                end
            end
      end
  end.

(** [download_and_extract(url, retries)] *)
Definition download_and_extract (net : network) (temp_dir url : string)
  (retries : nat) (w : World) : option string * World :=
  download_attempts net temp_dir url retries (seq 0 retries) w.

(** The number of requests in a trace, and its pauses. *)
Definition requests (t : list event) : nat :=
  List.length (filter (fun e => match e with Request _ => true | _ => false end) t).

Definition pauses (t : list event) : list Z :=
  flat_map (fun e => match e with Sleep ms => [ms] | _ => [] end) t.

(* ================================================================= *)
(** ** The orchestrator: [__init__], [cleanup] and [collect] *)

Definition temp_dir (symbol : string) : string := ("temp_" ++ symbol)%string.

(** [__init__]: the scratch directory is made when the collector is built. *)
Definition init (symbol : string) (w : World) : World :=
  on_fs (mkdir (temp_dir symbol)) w.

(** [cleanup()] *)
Definition cleanup (symbol : string) (fs : FS) : FS :=
  if dir_exists (temp_dir symbol) fs then rmtree (temp_dir symbol) fs else fs.

(** What one run meets outside the program. *)
Record Env : Type := mkEnv {
  env_listing : listing;     (* the answer to the listing request *)
  env_net : network;         (* the answers to the archive requests *)
  env_now : datetime;        (* [datetime.now()] in the locator *)
  env_now_ms : Z             (* the clock, in ms, in the merge stage *)
}.

(** The loop of lines 249-257. *)
Fixpoint fetch_all (net : network) (symbol : string) (zip_links : list string)
  (csv_files failed_urls : list string) (w : World)
  : list string * list string * World :=
  match zip_links with
  | [] => (csv_files, failed_urls, w)
  | url :: rest =>
      let (csv_file, w1) := download_and_extract net (temp_dir symbol) url 3 w in
      let w2 := emit (Sleep 100) w1 in
      match csv_file with
      | Some p => fetch_all net symbol rest (csv_files ++ [p]) failed_urls w2
      | None => fetch_all net symbol rest csv_files (failed_urls ++ [url]) w2
      end
  end.

Section Collect.

Variable parse_numeric : string -> option Q.
Variable sort_rows : (row -> value) -> list row -> list row.

(** [collect(output_filename)] *)
Definition collect (env : Env) (symbol interval output_filename : string)
  (w : World) : outcome (option DataFrame) * World :=
  match get_zip_links symbol interval (env_listing env) (env_now env) with
  | Raised => (Raised, w)
  | OutOfFuel => (OutOfFuel, w)
  | Returned [] => (Returned None, w)
  | Returned zip_links =>
      match fetch_all (env_net env) symbol zip_links [] [] w with
      | ([], _, w1) => (Returned None, w1)
      | (csv_files, _, w1) =>
          let (df, fs2) :=
            merge_csv_files parse_numeric sort_rows (env_now_ms env)
                            csv_files output_filename (w_fs w1) in
          (Returned df, mkWorld (cleanup symbol fs2) (w_trace w1))
      end
  end.

(** A collector built and run once, as [main] does for each pair. *)
Definition run (env : Env) (symbol interval output_filename : string)
  (w : World) : outcome (option DataFrame) * World :=
  collect env symbol interval output_filename (init symbol w).

End Collect.

(* ================================================================= *)
(** ** Vocabulary of the properties *)

(** What is asked of the sorting routine: the rows come back rearranged, in ascending order of the key. *)
Definition sorts (sort_rows : (row -> value) -> list row -> list row) : Prop :=
  forall key l,
    Permutation l (sort_rows key l)
    /\ StronglySorted (fun a b => value_le (key a) (key b)) (sort_rows key l).

(** The (year, month) pair [i] months after January of [y0]. *)
Definition month_at (y0 : Z) (i : nat) : Z * Z :=
  (y0 + Z.of_nat i / 12, Z.of_nat i mod 12 + 1).

(** Months from January of [y0], [n] of them, oldest first: the range the
    specification asks the fallback to cover. *)
Definition months_from (y0 : Z) (n : nat) : list (Z * Z) :=
  map (month_at y0) (seq 0 n).

(** The identifier generated for a (year, month) pair. *)
Definition url_of_month (symbol interval : string) (ym : Z * Z) : string :=
  month_url symbol interval (fst ym) (snd ym).

(** A reading of [datetime.now()] is a date and time that exists. *)
Definition valid_datetime (d : datetime) : Prop :=
  1 <= year d <= 9999 /\ 1 <= month d <= 12
  /\ 1 <= day d <= days_in_month (year d) (month d)
  /\ 0 <= hour d < 24 /\ 0 <= minute d < 60 /\ 0 <= second d < 60
  /\ 0 <= microsecond d < 1000000.

(** A cell that holds a whole number. *)
Definition is_integer (q : Q) : Prop := exists z : Z, (q == inject_Z z)%Q.

(** The number of rows whose cell in column [c] equals [v]. *)
Definition occurrences (cols : list string) (c : string) (v : value)
  (rows : list row) : nat :=
  List.length (filter (fun r => value_eqb (cell cols c r) v) rows).

(** A frame as [read_csv(names=columns)] builds it. *)
Definition kline_frame (df : DataFrame) : Prop :=
  df_columns df = columns
  /\ Forall (fun r => List.length r = 12%nat) (df_rows df).

Definition out_columns : list string := "datetime" :: columns.

Definition open_time_of : row -> value := cell columns "open_time".

(** Line 174 at one row. *)
Definition coerce_row (parse_numeric : string -> option Q) (r : row) : row :=
  set_nth 0 (to_numeric parse_numeric (open_time_of r)) r.

(** Lines 206-210 at one row. *)
Definition final_row (r : row) : row := to_datetime (open_time_of r) :: r.

(** The rows that pass the filter, before they are sorted. *)
Definition retained (parse_numeric : string -> option Q) (now_ms : Z)
  (dfs : list DataFrame) : list row :=
  filter (valid_mask columns now_ms)
         (map (coerce_row parse_numeric) (flat_map df_rows dfs)).

(** The rows left after the sort and the removal of duplicates. *)
Definition deduplicated (parse_numeric : string -> option Q)
  (sort_rows : (row -> value) -> list row -> list row) (now_ms : Z)
  (dfs : list DataFrame) : list row :=
  drop_dups open_time_of []
            (sort_rows open_time_of (retained parse_numeric now_ms dfs)).

(** The accepted range of [open_time], at clock reading [now_ms]. *)
Definition in_range (now_ms : Z) (q : Q) : Prop :=
  (inject_Z min_timestamp <= q /\ q <= inject_Z (max_timestamp now_ms))%Q.

(** A failed attempt that is not a plain 404: no answer at all, an HTTP
    error status other than 404, or an answer that is not an archive. *)
Definition failure (r : response) : bool :=
  match r with
  | NoResponse => true
  | Response status_code content =>
      negb (status_code =? 404)
      && (((400 <=? status_code) && (status_code <? 600))
          || match content with NotZip => true | Zip _ => false end)
  end.

(** What [retries] failed attempts leave in the trace: a request each, and
    a pause of two seconds after each but the last. *)
Definition failed_attempts (url : string) (retries : nat) (attempts : list nat)
  : list event :=
  flat_map (fun attempt =>
              if Z.of_nat attempt <? Z.of_nat retries - 1
              then [Request url; Sleep 2000] else [Request url])
           attempts.

(* ================================================================= *)
(** ** Inputs used to run the code *)

(** A clock reading: 2025-11-03T00:00:00Z. *)
Definition clock_2025 : Z := 1762128000000.

(** A row of twelve cells at [open_time = t] whose other cells are [tag]. *)
Definition kline (t : Q) (tag : string) : row := VNum t :: repeat (VStr tag) 11.



(** Three instants of July 2017, four hours apart. *)
Definition t_1 : Q := inject_Z 1500000000000.
Definition t_2 : Q := inject_Z 1500000014400.
Definition t_3 : Q := inject_Z 1500000028800.

(** A file system with one archive payload whose only row has
    [open_time = 1230768000000.5]. *)
Definition fs_half : FS :=
  mkFS ["temp_BTCUSDT"]
       [("temp_BTCUSDT/k.csv", Csv [kline (2461536000001 # 2) "x"])].

(** Two payloads that overlap at [t_2]. *)
Definition fs_dup : FS :=
  mkFS ["temp_BTCUSDT"]
       [("temp_BTCUSDT/a.csv", Csv [kline t_1 "A"; kline t_2 "A"]);
        ("temp_BTCUSDT/b.csv",
         Csv [kline t_2 "B"; kline t_3 "B"; kline t_2 "B2"])].

Definition files_dup : list string :=
  ["temp_BTCUSDT/a.csv"; "temp_BTCUSDT/b.csv"].

Definition merged_dup : DataFrame :=
  mkDF ("datetime" :: columns)
       [VTime t_1 :: kline t_1 "A"; VTime t_2 :: kline t_2 "A";
        VTime t_3 :: kline t_3 "B"].

(** Rows one millisecond below the minimum and at the minimum. *)
Definition fs_edge : FS :=
  mkFS ["temp_BTCUSDT"]
       [("temp_BTCUSDT/e.csv",
         Csv [kline (inject_Z 1230767999999) "below";
              kline (inject_Z 1230768000000) "min"])].

(** A payload of no bytes beside the payload whose rows all lie below the
    minimum. *)
Definition fs_old_empty : FS :=
  mkFS ["temp_BTCUSDT"]
       [("temp_BTCUSDT/z.csv", Csv []);
        ("temp_BTCUSDT/o.csv",
         Csv [kline (inject_Z 100) "o"; kline (inject_Z 200) "o"])].

(** Payloads with a line of thirteen fields: as the first line, followed by
    a blank line and a line of two fields; and after a line of twelve. *)
Definition fs_wide : FS :=
  mkFS ["temp_BTCUSDT"]
       [("temp_BTCUSDT/w.csv",
         Csv [VStr "i" :: kline t_1 "w"; []; [VStr "j"; VNum t_2]]);
        ("temp_BTCUSDT/v.csv",
         Csv [kline t_1 "v"; VStr "i" :: kline t_2 "v"])].

(** A clock that reads 15 June 2016, before the start year of either symbol. *)
Definition now_2016 : datetime := mkDT 2016 6 15 12 0 0 0.

(** A clock that reads 3 November 2025, 09:30. *)
Definition now_2025 : datetime := mkDT 2025 11 3 9 30 0 0.

(** An empty file system and an empty trace. *)
Definition w_empty : World := mkWorld (mkFS [] []) [].

(** Every request is answered 404. *)
Definition net_404 : network := fun _ _ => Response 404 NotZip.

(** No request is answered. *)
Definition net_down : network := fun _ _ => NoResponse.

(** The listing answers, and names no archive. *)
Definition env_no_archive : Env :=
  mkEnv (ListingDoc [] []) net_404 now_2025 clock_2025.

(** The listing names one archive, which is not there. *)
Definition env_all_missing : Env :=
  mkEnv (ListingDoc
           [KeyText "data/spot/monthly/klines/ETHUSDT/4h/ETHUSDT-4h-2018-01.zip"] [])
        net_404 now_2025 clock_2025.

(** The listing names one archive, which holds one payload of two rows. *)
Definition archive_url : string :=
  "https://s3-ap-northeast-1.amazonaws.com/data.binance.vision/data/spot/monthly/klines/ETHUSDT/4h/ETHUSDT-4h-2018-01.zip".

Definition net_one_archive : network :=
  fun url attempt =>
    if String.eqb url archive_url
    then Response 200 (Zip [("README.txt", Garbage);
                            ("ETHUSDT-4h-2018-01.csv",
                             Csv [kline t_2 "eth"; kline t_1 "eth"])])
    else Response 404 NotZip.

Definition env_one_archive : Env :=
  mkEnv (ListingDoc
           [KeyText "data/spot/monthly/klines/ETHUSDT/4h/ETHUSDT-4h-2018-01.zip";
            KeyText "data/spot/monthly/klines/ETHUSDT/4h/ETHUSDT-4h-2018-01.zip.CHECKSUM"]
           [])
        net_one_archive now_2025 clock_2025.

(* ================================================================= *)
(** ** The report of the merge stage and [main] *)

(** Line 171: the rows read, all batches together. *)
Definition initial_rows (dfs : list DataFrame) : nat :=
  List.length (df_rows (concat dfs)).

(** Line 189: the rows the mask rejects. *)
Definition invalid_count (parse_numeric : string -> option Q) (now_ms : Z)
  (dfs : list DataFrame) : nat :=
  let merged_df := coerce_open_time parse_numeric (concat dfs) in
  List.length
    (filter (fun r => negb (valid_mask (df_columns merged_df) now_ms r))
            (df_rows merged_df)).

(** Lines 199-201: the rows [drop_duplicates] takes away. *)
Definition duplicates_removed (parse_numeric : string -> option Q)
  (sort_rows : (row -> value) -> list row -> list row) (now_ms : Z)
  (dfs : list DataFrame) : nat :=
  let merged_df :=
    sort_values sort_rows "open_time" (validated parse_numeric now_ms dfs) in
  (List.length (df_rows merged_df)
   - List.length (df_rows (drop_duplicates "open_time" merged_df)))%nat.

(** [d[k] = v] on a dictionary kept in insertion order. *)
Fixpoint dict_set {A : Type} (k : string) (v : A) (d : list (string * A))
  : list (string * A) :=
  match d with
  | [] => [(k, v)]
  | (k', v') :: d' =>
      if String.eqb k k' then (k, v) :: d' else (k', v') :: dict_set k v d'
  end.

(** The pairs [main] collects, with their output files. *)
Definition pairs : list (string * string) :=
  [("BTCUSDT", "BTCUSDT_4h_full.csv"); ("ETHUSDT", "ETHUSDT_4h_full.csv")].

(** The loop of lines 302-311; [envs] gives what the run for each symbol
    meets. *)
Fixpoint main_loop (parse_numeric : string -> option Q)
  (sort_rows : (row -> value) -> list row -> list row) (envs : string -> Env)
  (todo : list (string * string)) (results : list (string * option DataFrame))
  (w : World) : outcome (list (string * option DataFrame)) * World :=
  match todo with
  | [] => (Returned results, w)
  | (symbol, output) :: rest =>
      match run parse_numeric sort_rows (envs symbol) symbol "4h" output w with
      | (Returned df, w1) =>
          main_loop parse_numeric sort_rows envs rest
                    (dict_set symbol df results) w1
      | (Raised, w1) => (Raised, w1)
      | (OutOfFuel, w1) => (OutOfFuel, w1)
      end
  end.

(** [main()]: the dictionary [results] and the state left behind. *)
Definition main (parse_numeric : string -> option Q)
  (sort_rows : (row -> value) -> list row -> list row) (envs : string -> Env)
  (w : World) : outcome (list (string * option DataFrame)) * World :=
  main_loop parse_numeric sort_rows envs pairs [] w.

(* ================================================================= *)
(** ** Further vocabulary *)

(** An answer that ends the fetch with [None] and without another attempt:
    status 404, or an archive that holds no [.csv] member. *)
Definition terminal (r : response) : bool :=
  match r with
  | NoResponse => false
  | Response status_code content =>
      (status_code =? 404)
      || (negb ((400 <=? status_code) && (status_code <? 600))
          && match content with
             | NotZip => false
             | Zip members =>
                 match first_csv members with Some _ => false | None => true end
             end)
  end.

(** The payload an answer delivers: the first member name that ends in
    [.csv], with the content extracted under it, of an archive that comes
    with a status that is no error. *)
Definition delivers (r : response) : option (string * file) :=
  match r with
  | NoResponse => None
  | Response status_code content =>
      if (status_code =? 404) || ((400 <=? status_code) && (status_code <? 600))
      then None
      else match content with NotZip => None | Zip members => first_csv members end
  end.

(** What [retries] attempts at [url] come to, whatever the state. *)
Definition fetched (net : network) (temp url : string) (retries : nat)
  : option string :=
  fst (download_and_extract net temp url retries (mkWorld (mkFS [] []) [])).

(** The trace of [j] failed attempts that are each followed by another. *)
Definition retried (url : string) (j : nat) : list event :=
  flat_map (fun _ : nat => [Request url; Sleep 2000]) (seq 0 j).



(** The texts of the [Key] children of a listing. *)
Definition key_texts (contents : list xml_key) : list string :=
  flat_map (fun k => match k with KeyText s => [s] | _ => [] end) contents.

(** The links the listing code makes of the keys that end in [.zip]. *)
Definition zip_links_of (contents : list xml_key) : list string :=
  map (fun s => (s3_base ++ "/" ++ s)%string)
      (filter (ends_with ".zip") (key_texts contents)).

(** A path below a directory. *)
Definition below (d p : string) : bool := prefix (d ++ "/") p.

(* ================================================================= *)
(** ** Further inputs *)


(** A server error, then 404. *)
Definition net_error_then_404 : network :=
  fun _ attempt =>
    if (attempt <? 1)%nat then Response 500 NotZip else Response 404 NotZip.

(** An archive whose payload is stored under an absolute name. *)
Definition net_abs_name : network :=
  fun _ _ => Response 200 (Zip [("/abs/k.csv", Csv [kline t_1 "x"])]).

Definition env_abs_name : Env :=
  mkEnv (ListingDoc
           [KeyText "data/spot/monthly/klines/ETHUSDT/4h/ETHUSDT-4h-2018-01.zip"] [])
        net_abs_name now_2025 clock_2025.

(** An archive with two members of one name. *)
Definition net_twice : network :=
  fun _ _ => Response 200 (Zip [("k.csv", Csv [kline t_1 "first"]);
                                ("k.csv", Csv [kline t_1 "last"])]).


(** What [main] meets: nothing listed for BTCUSDT, one archive for ETHUSDT. *)
Definition envs_demo (symbol : string) : Env :=
  if String.eqb symbol "ETHUSDT" then env_one_archive else env_no_archive.

(** The dataset of the one archive. *)
Definition merged_eth : DataFrame :=
  mkDF ("datetime" :: columns)
       [VTime t_1 :: kline t_1 "eth"; VTime t_2 :: kline t_2 "eth"].

(** The overlapping payloads listed in another order, one of them twice. *)
Definition files_dup_again : list string :=
  ["temp_BTCUSDT/b.csv"; "temp_BTCUSDT/a.csv"; "temp_BTCUSDT/b.csv"].

(** Their merge by the sort that reverses ties. *)
Definition merged_dup_again : DataFrame :=
  mkDF ("datetime" :: columns)
       [VTime t_1 :: kline t_1 "A"; VTime t_2 :: kline t_2 "B2";
        VTime t_3 :: kline t_3 "B"].

(** Two payloads that share the row at [t_2], listed in two orders, one of
    them twice. *)
Definition fs_overlap : FS :=
  mkFS ["temp_BTCUSDT"]
       [("temp_BTCUSDT/a.csv", Csv [kline t_1 "A"; kline t_2 "A"]);
        ("temp_BTCUSDT/c.csv", Csv [kline t_2 "A"; kline t_3 "C"])].

Definition files_overlap : list string :=
  ["temp_BTCUSDT/a.csv"; "temp_BTCUSDT/c.csv"].

Definition files_overlap_again : list string :=
  ["temp_BTCUSDT/c.csv"; "temp_BTCUSDT/a.csv"; "temp_BTCUSDT/c.csv"].

Definition merged_overlap : DataFrame :=
  mkDF ("datetime" :: columns)
       [VTime t_1 :: kline t_1 "A"; VTime t_2 :: kline t_2 "A";
        VTime t_3 :: kline t_3 "C"].

(** A listing with an archive, its checksum and a key without [Key]. *)
Definition listing_keys : list xml_key :=
  [KeyText "data/spot/monthly/klines/ETHUSDT/4h/ETHUSDT-4h-2018-02.zip";
   KeyMissing;
   KeyText "data/spot/monthly/klines/ETHUSDT/4h/ETHUSDT-4h-2018-01.zip.CHECKSUM";
   KeyText "data/spot/monthly/klines/ETHUSDT/4h/ETHUSDT-4h-2018-01.zip"].

(** The last instant Python's [datetime] can hold. *)
Definition now_9999 : datetime := mkDT 9999 12 31 23 59 59 999999.

(** Two links whose archives both hold a member [k.csv]. *)
Definition net_same_name : network :=
  fun url _ =>
    if String.eqb url "first.zip"
    then Response 200 (Zip [("k.csv", Csv [kline t_1 "first"])])
    else Response 200 (Zip [("k.csv", Csv [kline t_2 "second"])]).

(* ================================================================= *)
(** * Properties *)

(** ** Order and equality of cells *)

Lemma Qeq_bool_sym (x y : Q) : Qeq_bool x y = Qeq_bool y x.
Proof.
  destruct (Qeq_bool x y) eqn:E, (Qeq_bool y x) eqn:F; trivial.
  - apply Qeq_bool_iff in E. symmetry in E. apply Qeq_bool_iff in E. congruence.
  - apply Qeq_bool_iff in F. symmetry in F. apply Qeq_bool_iff in F. congruence.
Qed.

Lemma Qeq_bool_trans (x y z : Q) :
  Qeq_bool x y = true -> Qeq_bool y z = true -> Qeq_bool x z = true.
Proof.
  rewrite !Qeq_bool_iff. intros H1 H2. now rewrite H1.
Qed.

Lemma value_eqb_refl (v : value) : value_eqb v v = true.
Proof.
  destruct v; simpl; trivial.
  - apply Qeq_bool_iff. reflexivity.
  - apply String.eqb_refl.
  - apply Qeq_bool_iff. reflexivity.
Qed.

Lemma value_eqb_sym (a b : value) : value_eqb a b = value_eqb b a.
Proof.
  destruct a, b; simpl; trivial.
  - apply Qeq_bool_sym.
  - apply String.eqb_sym.
  - apply Qeq_bool_sym.
Qed.

Lemma value_eqb_trans (a b c : value) :
  value_eqb a b = true -> value_eqb b c = true -> value_eqb a c = true.
Proof.
  destruct a, b, c; simpl; try discriminate; trivial.
  - apply Qeq_bool_trans.
  - rewrite !String.eqb_eq. congruence.
  - apply Qeq_bool_trans.
Qed.

Lemma value_leb_trans (a b c : value) :
  value_leb a b = true -> value_leb b c = true -> value_leb a c = true.
Proof.
  destruct a, b, c; simpl; try discriminate; trivial.
  rewrite !Qle_bool_iff. apply Qle_trans.
Qed.

Lemma value_leb_total (a b : value) :
  value_leb a b = true \/ value_leb b a = true.
Proof.
  destruct a, b; simpl; auto.
  rewrite !Qle_bool_iff. destruct (Qlt_le_dec q q0); [left | right]; lra.
Qed.

Lemma existsb_value_eqb_compat (a b : value) (seen : list value) :
  value_eqb a b = true ->
  existsb (value_eqb a) seen = existsb (value_eqb b) seen.
Proof.
  intros E. induction seen as [|s seen IH]; simpl; trivial.
  rewrite IH. f_equal.
  destruct (value_eqb a s) eqn:A, (value_eqb b s) eqn:B; trivial.
  - rewrite value_eqb_sym in E.
    rewrite (value_eqb_trans _ _ _ E A) in B. discriminate.
  - rewrite (value_eqb_trans _ _ _ E B) in A. discriminate.
Qed.

(** ** De-duplication *)

Section DropDups.

Variable key : row -> value.

Lemma drop_dups_In (seen : list value) (rows : list row) (r : row) :
  In r (drop_dups key seen rows) ->
  In r rows /\ existsb (value_eqb (key r)) seen = false.
Proof.
  revert seen. induction rows as [|x rows IH]; simpl; intros seen H.
  - contradiction.
  - destruct (existsb (value_eqb (key x)) seen) eqn:E.
    + apply IH in H. tauto.
    + destruct H as [<- | H]; [tauto |].
      apply IH in H. destruct H as [H1 H2]. simpl in H2.
      apply orb_false_iff in H2. tauto.
Qed.

(** Kept rows stay in order, and no two of them share a key. *)
Lemma drop_dups_sorted (R : row -> row -> Prop) (seen : list value)
  (rows : list row) :
  StronglySorted R rows ->
  StronglySorted (fun a b => R a b /\ value_eqb (key a) (key b) = false)
                 (drop_dups key seen rows).
Proof.
  intros H. revert seen.
  induction H as [|x rows Hs IH Hx]; simpl; intros seen.
  - constructor.
  - destruct (existsb (value_eqb (key x)) seen); [apply IH |].
    constructor; [apply IH |].
    apply Forall_forall. intros y Hy.
    apply drop_dups_In in Hy. destruct Hy as [Hy1 Hy2].
    rewrite Forall_forall in Hx. split; [auto |].
    simpl in Hy2. apply orb_false_iff in Hy2.
    rewrite value_eqb_sym. tauto.
Qed.

(** How often a key comes out: never when it was seen before or does not
    occur, once otherwise. *)
Lemma drop_dups_count (seen : list value) (rows : list row) (v : value) :
  List.length (filter (fun r => value_eqb (key r) v) (drop_dups key seen rows))
  = if existsb (value_eqb v) seen then 0%nat
    else if existsb (fun r => value_eqb (key r) v) rows then 1%nat
    else 0%nat.
Proof.
  revert seen. induction rows as [|x rows IH]; simpl; intros seen.
  - now destruct (existsb (value_eqb v) seen).
  - destruct (existsb (value_eqb (key x)) seen) eqn:E.
    + rewrite IH.
      destruct (existsb (value_eqb v) seen) eqn:F; trivial.
      destruct (value_eqb (key x) v) eqn:G; trivial.
      rewrite (existsb_value_eqb_compat _ _ _ G) in E. congruence.
    + simpl. destruct (value_eqb (key x) v) eqn:G; simpl.
      * rewrite IH. simpl. rewrite value_eqb_sym, G. simpl.
        rewrite <- (existsb_value_eqb_compat _ _ _ G), E. reflexivity.
      * rewrite IH. simpl. rewrite value_eqb_sym, G. reflexivity.
Qed.

Lemma drop_dups_nil (seen : list value) (rows : list row) :
  drop_dups key seen rows = [] ->
  forall r, In r rows -> existsb (value_eqb (key r)) seen = true.
Proof.
  revert seen. induction rows as [|x rows IH]; simpl; intros seen H r Hr.
  - contradiction.
  - destruct (existsb (value_eqb (key x)) seen) eqn:E; [| discriminate].
    destruct Hr as [<- | Hr]; auto.
Qed.

(** A row that no earlier row matches on the key is kept. *)
Lemma drop_dups_keeps_first (seen : list value) (l1 l2 : list row) (r : row) :
  existsb (value_eqb (key r)) seen = false ->
  (forall x, In x l1 -> value_eqb (key x) (key r) = false) ->
  In r (drop_dups key seen (l1 ++ r :: l2)).
Proof.
  revert seen. induction l1 as [|x l1 IH]; intros seen Hseen Hl1; cbn.
  - rewrite Hseen. now left.
  - assert (Hx : value_eqb (key x) (key r) = false) by (apply Hl1; now left).
    assert (Hrest : forall y, In y l1 -> value_eqb (key y) (key r) = false)
      by (intros y Hy; apply Hl1; now right).
    destruct (existsb (value_eqb (key x)) seen); [now apply IH |].
    right. apply IH; [| exact Hrest].
    cbn. now rewrite value_eqb_sym, Hx.
Qed.

End DropDups.

(** ** The shape of the frames *)

Lemma open_time_of_nth (r : row) : open_time_of r = nth 0 r VNaN.
Proof. reflexivity. Qed.

Lemma read_line_length (names : list string) (width : nat) (l : list value) :
  (List.length names <= width)%nat -> (List.length l <= width)%nat ->
  List.length (read_line names width l) = List.length names.
Proof.
  intros Hn Hl. unfold read_line.
  rewrite length_skipn, length_app, repeat_length. lia.
Qed.

Lemma table_width_ge (names : list string) (lines : list (list value)) :
  (List.length names <= table_width names lines)%nat.
Proof. destruct lines as [|l lines]; cbn [table_width]; lia. Qed.

Lemma read_csv_kline (fs : FS) (p : string) (df : DataFrame) :
  read_csv fs p columns = Some df -> kline_frame df.
Proof.
  unfold read_csv.
  destruct (fs_lookup p (fs_files fs)) as [[lines|]|]; try discriminate.
  cbv zeta.
  set (ls := filter (fun l => negb (is_blank l)) lines).
  destruct (forallb _ ls) eqn:E; [| discriminate].
  intros [= <-]. split; [reflexivity |].
  cbn [df_rows]. rewrite forallb_forall in E.
  apply Forall_forall. intros r Hr.
  apply in_map_iff in Hr. destruct Hr as (l & <- & Hl).
  apply E in Hl. apply Nat.leb_le in Hl.
  apply (read_line_length columns); [apply table_width_ge | exact Hl].
Qed.

Lemma read_all_kline (fs : FS) (csv_files : list string) :
  Forall kline_frame (read_all fs csv_files).
Proof.
  unfold read_all. apply Forall_forall. intros df H.
  apply in_flat_map in H. destruct H as (p & _ & H).
  destruct (read_csv fs p columns) eqn:E; [| contradiction].
  destruct H as [<- | []]. eapply read_csv_kline; eauto.
Qed.

Lemma read_all_In (fs : FS) (csv_files : list string) (p : string) (df : DataFrame) :
  In p csv_files -> read_csv fs p columns = Some df ->
  In df (read_all fs csv_files).
Proof.
  intros H E. unfold read_all. apply in_flat_map. exists p. split; trivial.
  rewrite E. now left.
Qed.

Lemma concat_kline (dfs : list DataFrame) :
  dfs <> [] -> Forall kline_frame dfs -> kline_frame (concat dfs).
Proof.
  intros Hne H. destruct dfs as [|d dfs]; [congruence |].
  split.
  - cbn. inversion H as [|? ? [Hc _] _]. exact Hc.
  - cbn [concat df_rows]. apply Forall_forall. intros r Hr.
    apply in_flat_map in Hr. destruct Hr as (df & Hdf & Hr).
    rewrite Forall_forall in H. destruct (H _ Hdf) as [_ Hl].
    rewrite Forall_forall in Hl. auto.
Qed.

(** A row of twelve cells after lines 206-210: the instant first, then the
    twelve cells. *)
Lemma reorder_row (r : row) (v : value) :
  List.length r = 12%nat ->
  map (fun c => cell (columns ++ ["datetime"]) c (r ++ [v])) out_columns = v :: r.
Proof.
  intros H.
  do 13 (destruct r as [|? r]; [try discriminate H |]); [reflexivity |].
  discriminate H.
Qed.

Lemma set_nth_length (i : nat) (v : value) (r : row) :
  List.length (set_nth i v r) = List.length r.
Proof.
  revert i. induction r as [|x r IH]; intros [|i]; simpl; auto.
Qed.

Section MergeShape.

Variable parse_numeric : string -> option Q.
Variable sort_rows : (row -> value) -> list row -> list row.
Hypothesis sort_ok : sorts sort_rows.

Lemma retained_length (now_ms : Z) (dfs : list DataFrame) :
  Forall kline_frame dfs ->
  Forall (fun r => List.length r = 12%nat) (retained parse_numeric now_ms dfs).
Proof.
  intros H. apply Forall_forall. intros r Hr.
  apply filter_In in Hr. destruct Hr as [Hr _].
  apply in_map_iff in Hr. destruct Hr as (r0 & <- & Hr).
  unfold coerce_row. rewrite set_nth_length.
  apply in_flat_map in Hr. destruct Hr as (df & Hdf & Hr).
  rewrite Forall_forall in H. destruct (H _ Hdf) as [_ Hl].
  rewrite Forall_forall in Hl. auto.
Qed.

Lemma deduplicated_In (now_ms : Z) (dfs : list DataFrame) (r : row) :
  In r (deduplicated parse_numeric sort_rows now_ms dfs) ->
  In r (retained parse_numeric now_ms dfs).
Proof.
  intros H. apply drop_dups_In in H. destruct H as [H _].
  destruct (sort_ok open_time_of (retained parse_numeric now_ms dfs)) as [P _].
  eapply Permutation_in; [symmetry; exact P | exact H].
Qed.

Lemma coerce_open_time_kline (df : DataFrame) :
  df_columns df = columns ->
  coerce_open_time parse_numeric df
  = mkDF columns (map (coerce_row parse_numeric) (df_rows df)).
Proof.
  intros Hc. unfold coerce_open_time, assign_column. rewrite Hc.
  reflexivity.
Qed.

Lemma add_datetime_kline (df : DataFrame) :
  kline_frame df ->
  add_datetime df = mkDF out_columns (map final_row (df_rows df)).
Proof.
  intros [Hc Hl]. unfold add_datetime, assign_column. rewrite Hc.
  change (index_of "datetime" columns) with (@None nat). cbv iota beta.
  unfold select_columns. cbn [df_columns df_rows].
  f_equal. rewrite map_map.
  apply map_ext_in. intros r Hr.
  apply reorder_row. rewrite Forall_forall in Hl. auto.
Qed.

Lemma validated_eq (now_ms : Z) (dfs : list DataFrame) :
  dfs <> [] -> Forall kline_frame dfs ->
  validated parse_numeric now_ms dfs
  = mkDF columns (retained parse_numeric now_ms dfs).
Proof.
  intros Hne H.
  destruct (concat_kline dfs Hne H) as [Hc _].
  unfold validated. rewrite (coerce_open_time_kline _ Hc).
  reflexivity.
Qed.

(** The frame [merge_csv_files] builds, row by row. *)
Lemma merge_frames_eq (now_ms : Z) (dfs : list DataFrame) :
  dfs <> [] -> Forall kline_frame dfs ->
  merge_frames parse_numeric sort_rows now_ms dfs
  = mkDF out_columns
         (map final_row (deduplicated parse_numeric sort_rows now_ms dfs)).
Proof.
  intros Hne H.
  unfold merge_frames. rewrite (validated_eq _ _ Hne H).
  unfold sort_values, drop_duplicates. cbn [df_columns df_rows].
  rewrite add_datetime_kline; [reflexivity |].
  split; [reflexivity |]. cbn [df_rows].
  pose proof (retained_length now_ms dfs H) as L.
  rewrite Forall_forall in L. apply Forall_forall. intros r Hr.
  apply L. apply deduplicated_In. exact Hr.
Qed.

End MergeShape.

(** ** Lists *)

Lemma StronglySorted_map {A B : Type} (f : A -> B) (R : B -> B -> Prop)
  (l : list A) :
  StronglySorted (fun a b => R (f a) (f b)) l -> StronglySorted R (map f l).
Proof.
  induction 1 as [|x l Hs IH Hx]; simpl; constructor; trivial.
  apply Forall_map. exact Hx.
Qed.

Lemma StronglySorted_weaken_In {A : Type} (R R' : A -> A -> Prop) (l : list A) :
  (forall a b, In a l -> In b l -> R a b -> R' a b) ->
  StronglySorted R l -> StronglySorted R' l.
Proof.
  intros H S. induction S as [|x l Hs IH Hx]; constructor.
  - apply IH. intros a b Ha Hb. apply H; now right.
  - rewrite Forall_forall in *. intros y Hy.
    apply H; [now left | now right | auto].
Qed.

Lemma filter_map_length {A B : Type} (f : A -> B) (p : B -> bool) (l : list A) :
  List.length (filter p (map f l)) = List.length (filter (fun a => p (f a)) l).
Proof.
  induction l as [|x l IH]; simpl; trivial.
  destruct (p (f x)); simpl; congruence.
Qed.

(** ** The merge stage *)

Section MergeProperties.

Variable parse_numeric : string -> option Q.
Variable sort_rows : (row -> value) -> list row -> list row.
Hypothesis sort_ok : sorts sort_rows.

Lemma valid_mask_spec (now_ms : Z) (r : row) :
  valid_mask columns now_ms r = true
  <-> exists q, open_time_of r = VNum q /\ in_range now_ms q.
Proof.
  unfold valid_mask, in_range. fold open_time_of.
  destruct (open_time_of r) as [q| | |]; simpl.
  - rewrite andb_true_iff, !Qle_bool_iff. split.
    + intros H. exists q. tauto.
    + intros (q' & [= <-] & H). exact H.
  - split; [discriminate | intros (q' & [=] & _)].
  - split; [discriminate | intros (q' & [=] & _)].
  - split; [discriminate | intros (q' & [=] & _)].
Qed.

Lemma open_time_coerce_row (r0 : row) :
  open_time_of (coerce_row parse_numeric r0)
  = to_numeric parse_numeric (open_time_of r0).
Proof.
  unfold coerce_row. rewrite !open_time_of_nth. now destruct r0.
Qed.

Lemma retained_iff (now_ms : Z) (dfs : list DataFrame) (r : row) :
  In r (retained parse_numeric now_ms dfs)
  <-> (exists r0, In r0 (flat_map df_rows dfs) /\ r = coerce_row parse_numeric r0)
      /\ exists q, open_time_of r = VNum q /\ in_range now_ms q.
Proof.
  unfold retained. rewrite filter_In, in_map_iff, valid_mask_spec.
  split; intros [(r0 & H1 & H2) H]; (split; [exists r0 |]); auto.
Qed.

Lemma merge_csv_files_Some (now_ms : Z) (csv_files : list string)
  (out : string) (fs fs' : FS) (df : DataFrame) :
  merge_csv_files parse_numeric sort_rows now_ms csv_files out fs = (Some df, fs') ->
  read_all fs csv_files <> []
  /\ df = mkDF out_columns
            (map final_row
                 (deduplicated parse_numeric sort_rows now_ms (read_all fs csv_files)))
  /\ fs' = to_csv out df fs.
Proof.
  unfold merge_csv_files.
  pose proof (read_all_kline fs csv_files) as K.
  destruct (read_all fs csv_files) as [|d dfs] eqn:E; [discriminate |].
  intros [= <- <-]. split; [discriminate |].
  split; [| reflexivity].
  apply merge_frames_eq; [exact sort_ok | discriminate | exact K].
Qed.

End MergeProperties.

Lemma Qle_neq_lt (x y : Q) :
  Qle_bool x y = true -> Qeq_bool x y = false -> (x < y)%Q.
Proof.
  intros L E. apply Qle_bool_iff in L.
  destruct (Qlt_le_dec x y) as [H | H]; trivial.
  assert (x == y)%Q as K by lra.
  apply Qeq_bool_iff in K. congruence.
Qed.


Lemma cell_final_open_time (r : row) :
  cell out_columns "open_time" (final_row r) = open_time_of r.
Proof. reflexivity. Qed.

Lemma cell_final_datetime (r : row) :
  cell out_columns "datetime" (final_row r) = to_datetime (open_time_of r).
Proof. reflexivity. Qed.

(** Behind the leading instant, the cells of a written row are the cells of
    the row it was made from, column by column. *)
Lemma cell_final_other (c : string) (r : row) :
  In c columns -> cell out_columns c (final_row r) = cell columns c r.
Proof.
  intros H. unfold cell, out_columns. cbn [index_of].
  replace (String.eqb c "datetime") with false.
  - destruct (index_of c columns); reflexivity.
  - symmetry. apply String.eqb_neq. intros ->.
    cbv in H. repeat (destruct H as [H | H]; [discriminate H |]). exact H.
Qed.

Section MergeClaims.

Variable parse_numeric : string -> option Q.
Variable sort_rows : (row -> value) -> list row -> list row.
Hypothesis sort_ok : sorts sort_rows.

(** Every written row is a retained row behind its instant. *)
Lemma merged_rows_origin (now_ms : Z) (csv_files : list string)
  (out : string) (fs fs' : FS) (df : DataFrame) (r : row) :
  merge_csv_files parse_numeric sort_rows now_ms csv_files out fs = (Some df, fs') ->
  In r (df_rows df) ->
  df_columns df = out_columns
  /\ exists r0 q,
      In r0 (flat_map df_rows (read_all fs csv_files))
      /\ to_numeric parse_numeric (open_time_of r0) = VNum q
      /\ in_range now_ms q
      /\ r = VTime q :: coerce_row parse_numeric r0.
Proof.
  intros M Hr.
  apply (merge_csv_files_Some _ _ sort_ok) in M. destruct M as (_ & -> & _).
  split; [reflexivity |].
  cbn [df_rows] in Hr. apply in_map_iff in Hr. destruct Hr as (r1 & <- & Hr).
  apply (deduplicated_In _ _ sort_ok) in Hr.
  apply retained_iff in Hr.
  destruct Hr as [(r0 & Hr0 & ->) (q & Hq & Hrange)].
  exists r0, q. rewrite open_time_coerce_row in Hq.
  split; [exact Hr0 |]. split; [exact Hq |]. split; [exact Hrange |].
  unfold final_row. rewrite open_time_coerce_row, Hq. reflexivity.
Qed.

(** C3. The validity filter keeps a row exactly when its [open_time]
    coerces to a number and that number lies in
    [[1230768000000, now + 365 days]] (both ends included, in epoch
    milliseconds).  A row at 1230767999999 is dropped; a row at
    1230768000000 is kept, the clock being such that the range is not
    empty. *)
Theorem validity_filter_retains_iff (now_ms : Z) (fs : FS)
  (csv_files : list string) (r0 : row) :
  In r0 (flat_map df_rows (read_all fs csv_files)) ->
  let kept := df_rows (validated parse_numeric now_ms (read_all fs csv_files)) in
  (In (coerce_row parse_numeric r0) kept
   <-> exists q, to_numeric parse_numeric (open_time_of r0) = VNum q
                 /\ (inject_Z 1230768000000 <= q)%Q
                 /\ (q <= inject_Z (now_ms + 365 * 86400 * 1000))%Q)
  /\ (open_time_of r0 = VNum (inject_Z 1230767999999) ->
      ~ In (coerce_row parse_numeric r0) kept)
  /\ (open_time_of r0 = VNum (inject_Z 1230768000000) ->
      1230768000000 <= now_ms + 365 * 86400 * 1000 ->
      In (coerce_row parse_numeric r0) kept).
Proof.
  intros Hin kept.
  assert (Hne : read_all fs csv_files <> []).
  { intros E. rewrite E in Hin. exact Hin. }
  assert (Hiff : In (coerce_row parse_numeric r0) kept
                 <-> exists q, to_numeric parse_numeric (open_time_of r0) = VNum q
                               /\ in_range now_ms q).
  { unfold kept. rewrite (validated_eq _ _ _ Hne (read_all_kline _ _)).
    cbn [df_rows]. rewrite retained_iff, open_time_coerce_row.
    split; [tauto |]. intros H. split; trivial. now exists r0. }
  split; [| split].
  - rewrite Hiff. unfold in_range, min_timestamp, max_timestamp. tauto.
  - intros E. rewrite Hiff, E. intros (q & [= <-] & [H _]).
    unfold min_timestamp in H. rewrite <- Zle_Qle in H. lia.
  - intros E Hclock. rewrite Hiff, E. eexists. split; [reflexivity |].
    unfold in_range, min_timestamp, max_timestamp.
    rewrite <- !Zle_Qle. lia.
Qed.

(** C4. The rows of a merged dataset are in strictly ascending order of
    [open_time], and every [open_time] that some input row carries and
    that passes the validity filter occurs in exactly one row of the
    output, however many input rows carry it. *)
Theorem merged_strictly_sorted_unique (now_ms : Z) (csv_files : list string)
  (out : string) (fs fs' : FS) (df : DataFrame) :
  merge_csv_files parse_numeric sort_rows now_ms csv_files out fs = (Some df, fs') ->
  StronglySorted
    (fun a b => value_lt (cell (df_columns df) "open_time" a)
                         (cell (df_columns df) "open_time" b))
    (df_rows df)
  /\ forall r0 q,
      In r0 (flat_map df_rows (read_all fs csv_files)) ->
      to_numeric parse_numeric (open_time_of r0) = VNum q ->
      in_range now_ms q ->
      occurrences (df_columns df) "open_time" (VNum q) (df_rows df) = 1%nat.
Proof.
  intros M.
  apply (merge_csv_files_Some _ _ sort_ok) in M. destruct M as (_ & -> & _).
  cbn [df_columns df_rows].
  set (dfs := read_all fs csv_files).
  destruct (sort_ok open_time_of (retained parse_numeric now_ms dfs)) as [P S].
  split.
  - apply StronglySorted_map.
    apply (drop_dups_sorted open_time_of _ []) in S.
    revert S. apply StronglySorted_weaken_In.
    intros a b Ha Hb [Hle Hne].
    rewrite !cell_final_open_time.
    apply (deduplicated_In _ _ sort_ok), retained_iff in Ha, Hb.
    destruct Ha as [_ (x & Hx & _)], Hb as [_ (y & Hy & _)].
    unfold value_le in Hle. rewrite Hx, Hy in *. simpl in *.
    now apply Qle_neq_lt.
  - intros r0 q Hin Hq Hrange. unfold occurrences.
    rewrite filter_map_length.
    erewrite filter_ext; [| intros a; rewrite cell_final_open_time; reflexivity].
    unfold deduplicated. fold dfs. rewrite drop_dups_count. cbn [existsb].
    replace (existsb _ _) with true; [reflexivity |].
    symmetry. apply existsb_exists.
    exists (coerce_row parse_numeric r0). split.
    + eapply Permutation_in; [exact P |].
      apply retained_iff. rewrite open_time_coerce_row. split; eauto.
    + rewrite open_time_coerce_row, Hq. apply value_eqb_refl.
Qed.

(** C5. In a merged dataset the columns are [datetime], [open_time], then
    the other eleven columns in their original order; in every row the
    [datetime] cell is the UTC instant of that row's [open_time], taken
    as epoch milliseconds, and the other cells are those of the input
    row the output row was made from. *)
Theorem merged_datetime_and_column_order (now_ms : Z)
  (csv_files : list string) (out : string) (fs fs' : FS) (df : DataFrame) :
  merge_csv_files parse_numeric sort_rows now_ms csv_files out fs = (Some df, fs') ->
  df_columns df
  = ["datetime"; "open_time"; "open"; "high"; "low"; "close"; "volume";
     "close_time"; "quote_volume"; "trades"; "taker_buy_base";
     "taker_buy_quote"; "ignore"]
  /\ (forall r, In r (df_rows df) ->
      cell (df_columns df) "datetime" r
      = to_datetime (cell (df_columns df) "open_time" r)
      /\ exists q r0,
          cell (df_columns df) "open_time" r = VNum q
          /\ cell (df_columns df) "datetime" r = VTime q
          /\ In r0 (flat_map df_rows (read_all fs csv_files))
          /\ forall c, In c columns ->
               cell (df_columns df) c r
               = cell columns c (coerce_row parse_numeric r0)).
Proof.
  intros M. split.
  - apply (merge_csv_files_Some _ _ sort_ok) in M. now destruct M as (_ & -> & _).
  - intros r Hr.
    destruct (merged_rows_origin _ _ _ _ _ _ _ M Hr)
      as (-> & r0 & q & Hin & Hq & _ & ->).
    assert (E : VTime q :: coerce_row parse_numeric r0
                = final_row (coerce_row parse_numeric r0)).
    { unfold final_row. now rewrite open_time_coerce_row, Hq. }
    rewrite E. rewrite cell_final_open_time, cell_final_datetime.
    split; [reflexivity |].
    exists q, r0. rewrite open_time_coerce_row, Hq.
    repeat split; trivial.
    intros c Hc. now apply cell_final_other.
Qed.

(** C9, as amended. In a merged dataset every row's [open_time] is a
    number within the accepted range; the code does not ask that it be a
    whole number. *)
Theorem merged_open_time_in_range (now_ms : Z) (csv_files : list string)
  (out : string) (fs fs' : FS) (df : DataFrame) (r : row) :
  merge_csv_files parse_numeric sort_rows now_ms csv_files out fs = (Some df, fs') ->
  In r (df_rows df) ->
  exists q, cell (df_columns df) "open_time" r = VNum q
            /\ (inject_Z 1230768000000 <= q)%Q
            /\ (q <= inject_Z (now_ms + 365 * 86400 * 1000))%Q.
Proof.
  intros M Hr.
  destruct (merged_rows_origin _ _ _ _ _ _ _ M Hr)
    as (-> & r0 & q & _ & Hq & Hrange & ->).
  exists q. split; [| exact Hrange].
  assert (E : VTime q :: coerce_row parse_numeric r0
              = final_row (coerce_row parse_numeric r0)).
  { unfold final_row. now rewrite open_time_coerce_row, Hq. }
  rewrite E, cell_final_open_time, open_time_coerce_row. exact Hq.
Qed.

End MergeClaims.

Lemma no_member_nil {A : Type} (l : list A) : (forall x, ~ In x l) -> l = [].
Proof.
  destruct l as [|x l]; trivial. intros H. destruct (H x). now left.
Qed.

Lemma read_all_nil_iff (fs : FS) (csv_files : list string) :
  read_all fs csv_files = []
  <-> forall p, In p csv_files -> read_csv fs p columns = None.
Proof.
  unfold read_all. induction csv_files as [|p ps IH]; simpl.
  - split; [intros _ p [] | trivial].
  - destruct (read_csv fs p columns) eqn:E; simpl.
    + split; [discriminate |]. intros H.
      specialize (H p (or_introl eq_refl)). congruence.
    + rewrite IH. split.
      * intros H p' [<- | Hp]; auto.
      * intros H p' Hp. apply H. now right.
Qed.

Section MergeAbsence.

Variable parse_numeric : string -> option Q.
Variable sort_rows : (row -> value) -> list row -> list row.
Hypothesis sort_ok : sorts sort_rows.

(** C8. With no input batch at all the merge returns [None] and leaves
    the file system as it found it: no output file is written. *)
Theorem merge_no_batches_absent (now_ms : Z) (out : string) (fs : FS) :
  merge_csv_files parse_numeric sort_rows now_ms [] out fs = (None, fs).
Proof. reflexivity. Qed.

(** C10. When at least one batch parses and every row of the parsed
    batches fails the validity filter, the merge does not return [None]:
    it returns the dataset without rows and writes the output file, which
    holds the header line only.  [None] is returned exactly when no batch
    parses (among them: when there is no batch). *)
Theorem merge_all_rows_invalid_writes_header (now_ms : Z)
  (csv_files : list string) (out : string) (fs : FS) :
  ((exists p, In p csv_files /\ read_csv fs p columns <> None) ->
   (forall r0, In r0 (flat_map df_rows (read_all fs csv_files)) ->
               ~ exists q, to_numeric parse_numeric (open_time_of r0) = VNum q
                           /\ in_range now_ms q) ->
   merge_csv_files parse_numeric sort_rows now_ms csv_files out fs
   = (Some (mkDF ("datetime" :: columns) []),
      write_file out (Csv [map VStr ("datetime" :: columns)]) fs))
  /\ (fst (merge_csv_files parse_numeric sort_rows now_ms csv_files out fs) = None
      <-> forall p, In p csv_files -> read_csv fs p columns = None).
Proof.
  split.
  - intros (p & Hp & Hread) Hbad.
    assert (Hne : read_all fs csv_files <> []).
    { rewrite read_all_nil_iff. intros H. apply Hread. auto. }
    assert (R : retained parse_numeric now_ms (read_all fs csv_files) = []).
    { apply no_member_nil. intros r Hr. apply retained_iff in Hr.
      destruct Hr as [(r0 & Hr0 & ->) (q & Hq & Hrange)].
      rewrite open_time_coerce_row in Hq. apply (Hbad r0 Hr0). eauto. }
    assert (D : deduplicated parse_numeric sort_rows now_ms
                  (read_all fs csv_files) = []).
    { unfold deduplicated. rewrite R.
      destruct (sort_ok open_time_of []) as [P _].
      apply Permutation_nil in P. now rewrite P. }
    pose proof (merge_frames_eq parse_numeric sort_rows sort_ok now_ms _ Hne
                  (read_all_kline fs csv_files)) as E.
    rewrite D in E. unfold merge_csv_files.
    destruct (read_all fs csv_files) as [|d dfs]; [congruence |].
    rewrite E. reflexivity.
  - rewrite <- read_all_nil_iff. unfold merge_csv_files.
    destruct (read_all fs csv_files) as [|d dfs]; simpl.
    + tauto.
    + split; discriminate.
Qed.

End MergeAbsence.

(** ** The reference sorts *)

Section InsertionSort.

Variable before : value -> value -> bool.
Variable key : row -> value.
Hypothesis before_le : forall a b, before a b = true -> value_leb a b = true.
Hypothesis not_before_ge : forall a b, before a b = false -> value_leb b a = true.

Lemma insert_with_perm (x : row) (l : list row) :
  Permutation (x :: l) (insert_with before key x l).
Proof.
  induction l as [|y l IH]; simpl; [apply Permutation_refl |].
  destruct (before (key x) (key y)); [apply Permutation_refl |].
  eapply perm_trans; [apply perm_swap |]. now apply perm_skip.
Qed.

Lemma sort_with_perm (l : list row) : Permutation l (sort_with before key l).
Proof.
  induction l as [|x l IH]; simpl; [constructor |].
  eapply perm_trans; [apply perm_skip, IH | apply insert_with_perm].
Qed.

Lemma insert_with_sorted (x : row) (l : list row) :
  StronglySorted (fun a b => value_le (key a) (key b)) l ->
  StronglySorted (fun a b => value_le (key a) (key b)) (insert_with before key x l).
Proof.
  induction 1 as [|y l Hs IH Hy]; simpl.
  - repeat constructor.
  - destruct (before (key x) (key y)) eqn:E.
    + constructor; [now constructor |].
      apply before_le in E. constructor; [exact E |].
      eapply Forall_impl; [| exact Hy].
      intros z Hz. unfold value_le in *. eapply value_leb_trans; eauto.
    + constructor; [exact IH |].
      apply not_before_ge in E.
      eapply Permutation_Forall; [apply insert_with_perm |].
      constructor; assumption.
Qed.

Lemma sort_with_sorted (l : list row) :
  StronglySorted (fun a b => value_le (key a) (key b)) (sort_with before key l).
Proof.
  induction l as [|x l IH]; simpl; [constructor |].
  now apply insert_with_sorted.
Qed.

End InsertionSort.

Lemma stable_sort_sorts : sorts stable_sort.
Proof.
  intros key l. split.
  - apply sort_with_perm.
  - apply sort_with_sorted; [auto |].
    intros a b H. destruct (value_leb_total a b); congruence.
Qed.

Lemma reversing_sort_sorts : sorts reversing_sort.
Proof.
  intros key l. split.
  - apply sort_with_perm.
  - apply sort_with_sorted; intros a b H.
    + apply negb_true_iff in H. destruct (value_leb_total a b); congruence.
    + now apply negb_false_iff in H.
Qed.

(** ** Which of two rows with one [open_time] is written *)




Section FirstListedWins.

Variable parse_numeric : string -> option Q.
Variable sort_rows : (row -> value) -> list row -> list row.
Hypothesis sort_ok : sorts sort_rows.


(** The rule of lines 196-200, whatever the sorting routine: the row
    written for an [open_time] is the first row that carries it in the
    order the sort returns. *)
Lemma merge_keeps_first_listed (now_ms : Z) (dfs : list DataFrame)
  (s1 s2 : list row) (r : row) :
  dfs <> [] -> Forall kline_frame dfs ->
  sort_rows open_time_of (retained parse_numeric now_ms dfs) = s1 ++ r :: s2 ->
  (forall x, In x s1 -> value_eqb (open_time_of x) (open_time_of r) = false) ->
  In (final_row r) (df_rows (merge_frames parse_numeric sort_rows now_ms dfs)).
Proof.
  intros Hne K E Hs1.
  rewrite (merge_frames_eq _ _ sort_ok _ _ Hne K). cbn [df_rows].
  apply in_map. unfold deduplicated. rewrite E.
  apply drop_dups_keeps_first; [reflexivity | exact Hs1].
Qed.



End FirstListedWins.

(** ** Concrete runs of the merge stage *)



(** The contract of the sorting routine leaves the order of the two rows
    at [t_2] open: a routine that returns the rows in ascending order and
    lists later arrivals first among equals gives the row of batch B. *)
Example merge_tie_order_follows_sort :
  sorts reversing_sort
  /\ df_rows (merge_frames parse_integer reversing_sort clock_2025
                [mkDF columns [kline t_1 "A"; kline t_2 "A"];
                 mkDF columns [kline t_2 "B"; kline t_3 "B"]])
     = [VTime t_1 :: kline t_1 "A";
        VTime t_2 :: kline t_2 "B";
        VTime t_3 :: kline t_3 "B"].
Proof. split; [exact reversing_sort_sorts | reflexivity]. Qed.

(** C9, counterexample. A row whose [open_time] is 1230768000000.5 passes
    the filter and is written: the merged dataset holds an [open_time] that
    is not a whole number. *)
Lemma merged_open_time_not_integer :
  exists df fs' r q,
    merge_csv_files parse_integer stable_sort clock_2025
      ["temp_BTCUSDT/k.csv"] "out.csv" fs_half = (Some df, fs')
    /\ In r (df_rows df)
    /\ cell (df_columns df) "open_time" r = VNum q
    /\ ~ is_integer q.
Proof.
  eexists _, _, _, (2461536000001 # 2)%Q.
  split; [reflexivity |]. split; [now left |]. split; [reflexivity |].
  intros [z Hz]. unfold Qeq in Hz. simpl in Hz. lia.
Qed.

(** The range holds for the row at 1230768000000.5 as well. *)
Lemma merged_open_time_in_range_witness :
  exists q,
    cell ("datetime" :: columns) "open_time"
         (VTime (2461536000001 # 2) :: kline (2461536000001 # 2) "x") = VNum q
    /\ (inject_Z 1230768000000 <= q)%Q
    /\ (q <= inject_Z (clock_2025 + 365 * 86400 * 1000))%Q.
Proof.
  apply (merged_open_time_in_range parse_integer stable_sort stable_sort_sorts
           clock_2025 ["temp_BTCUSDT/k.csv"] "out.csv" fs_half
           (to_csv "out.csv"
              (mkDF ("datetime" :: columns)
                    [VTime (2461536000001 # 2) :: kline (2461536000001 # 2) "x"])
              fs_half)
           (mkDF ("datetime" :: columns)
                 [VTime (2461536000001 # 2) :: kline (2461536000001 # 2) "x"])).
  - reflexivity.
  - now left.
Defined.

(** The run on the two overlapping payloads. *)
Lemma merge_dup_run :
  merge_csv_files parse_integer stable_sort clock_2025 files_dup "out.csv" fs_dup
  = (Some merged_dup, to_csv "out.csv" merged_dup fs_dup).
Proof. reflexivity. Qed.

(** The instant [t_2], which three input rows carry, occurs once. *)
Lemma merged_strictly_sorted_unique_witness :
  StronglySorted
    (fun a b => value_lt (cell (df_columns merged_dup) "open_time" a)
                         (cell (df_columns merged_dup) "open_time" b))
    (df_rows merged_dup)
  /\ occurrences (df_columns merged_dup) "open_time" (VNum t_2)
                 (df_rows merged_dup) = 1%nat.
Proof.
  destruct (merged_strictly_sorted_unique parse_integer stable_sort
              stable_sort_sorts clock_2025 files_dup "out.csv" fs_dup _ _
              merge_dup_run) as [S U].
  split; [exact S |].
  apply (U (kline t_2 "B2")).
  - cbn. tauto.
  - reflexivity.
  - unfold in_range, Qle; simpl; lia.
Defined.

(** Column order and the instant of the row at [t_2]. *)
Lemma merged_datetime_and_column_order_witness :
  df_columns merged_dup
  = ["datetime"; "open_time"; "open"; "high"; "low"; "close"; "volume";
     "close_time"; "quote_volume"; "trades"; "taker_buy_base";
     "taker_buy_quote"; "ignore"]
  /\ cell (df_columns merged_dup) "datetime" (VTime t_2 :: kline t_2 "A")
     = to_datetime (cell (df_columns merged_dup) "open_time"
                         (VTime t_2 :: kline t_2 "A")).
Proof.
  destruct (merged_datetime_and_column_order parse_integer stable_sort
              stable_sort_sorts clock_2025 files_dup "out.csv" fs_dup _ _
              merge_dup_run) as [C R].
  split; [exact C |].
  apply R. cbn. tauto.
Defined.

(** The two rows at the lower end of the range. *)
Lemma validity_filter_retains_iff_witness :
  let kept := df_rows (validated parse_integer clock_2025
                         (read_all fs_edge ["temp_BTCUSDT/e.csv"])) in
  In (coerce_row parse_integer (kline (inject_Z 1230768000000) "min")) kept
  /\ ~ In (coerce_row parse_integer (kline (inject_Z 1230767999999) "below")) kept.
Proof.
  intros kept. split.
  - assert (I : In (kline (inject_Z 1230768000000) "min")
                   (flat_map df_rows (read_all fs_edge ["temp_BTCUSDT/e.csv"])))
      by (right; left; reflexivity).
    destruct (validity_filter_retains_iff parse_integer clock_2025 fs_edge
                ["temp_BTCUSDT/e.csv"] _ I) as (_ & _ & K).
    apply K; [reflexivity | unfold clock_2025; lia].
  - assert (I : In (kline (inject_Z 1230767999999) "below")
                   (flat_map df_rows (read_all fs_edge ["temp_BTCUSDT/e.csv"])))
      by (left; reflexivity).
    destruct (validity_filter_retains_iff parse_integer clock_2025 fs_edge
                ["temp_BTCUSDT/e.csv"] _ I) as (_ & D & _).
    apply D. reflexivity.
Defined.

(** The files [read_csv] accepts at the margin: a payload of no bytes gives
    a frame without rows; a first line of thirteen fields gives its first
    field to the index, and so does every line after it, short lines being
    filled up first and blank lines skipped; a line of thirteen fields
    after a line of twelve makes the file unreadable. *)
Example read_csv_margins :
  read_csv fs_old_empty "temp_BTCUSDT/z.csv" columns = Some (mkDF columns [])
  /\ read_csv fs_wide "temp_BTCUSDT/w.csv" columns
     = Some (mkDF columns [kline t_1 "w"; VNum t_2 :: repeat VNaN 11])
  /\ read_csv fs_wide "temp_BTCUSDT/v.csv" columns = None.
Proof. repeat split. Qed.

(** A payload of no bytes alone, and beside two rows from 1970: the merge
    returns the dataset without rows, and the output file is the header
    line alone. *)
Lemma merge_all_rows_invalid_writes_header_witness :
  merge_csv_files parse_integer stable_sort clock_2025
    ["temp_BTCUSDT/z.csv"] "out.csv" fs_old_empty
  = (Some (mkDF ("datetime" :: columns) []),
     write_file "out.csv" (Csv [map VStr ("datetime" :: columns)]) fs_old_empty)
  /\ merge_csv_files parse_integer stable_sort clock_2025
       ["temp_BTCUSDT/z.csv"; "temp_BTCUSDT/o.csv"] "out.csv" fs_old_empty
     = (Some (mkDF ("datetime" :: columns) []),
        write_file "out.csv" (Csv [map VStr ("datetime" :: columns)])
                   fs_old_empty).
Proof.
  split.
  - destruct (merge_all_rows_invalid_writes_header parse_integer stable_sort
                stable_sort_sorts clock_2025 ["temp_BTCUSDT/z.csv"] "out.csv"
                fs_old_empty) as [W _].
    apply W.
    + exists "temp_BTCUSDT/z.csv". split; [now left | discriminate].
    + intros r0 Hr. cbn in Hr. contradiction.
  - destruct (merge_all_rows_invalid_writes_header parse_integer stable_sort
                stable_sort_sorts clock_2025
                ["temp_BTCUSDT/z.csv"; "temp_BTCUSDT/o.csv"] "out.csv"
                fs_old_empty) as [W _].
    apply W.
    + exists "temp_BTCUSDT/z.csv". split; [now left | discriminate].
    + intros r0 Hr (q & Hq & [Hmin _]).
      cbn in Hr. destruct Hr as [<- | [<- | []]];
        injection Hq as <-; unfold min_timestamp, Qle in Hmin; simpl in Hmin; lia.
Defined.

(* ================================================================= *)
(** ** The fetcher *)

Lemma requests_app (t u : list event) :
  requests (t ++ u) = (requests t + requests u)%nat.
Proof. unfold requests. now rewrite filter_app, length_app. Qed.

Lemma pauses_app (t u : list event) : pauses (t ++ u) = pauses t ++ pauses u.
Proof. unfold pauses. apply flat_map_app. Qed.

Lemma failed_attempts_count (url : string) (retries k a : nat) :
  (a + k = retries)%nat ->
  requests (failed_attempts url retries (seq a k)) = k
  /\ pauses (failed_attempts url retries (seq a k)) = repeat 2000 (k - 1).
Proof.
  revert a. induction k as [|k IH]; intros a H; [split; reflexivity |].
  destruct (IH (S a)) as [IH1 IH2]; [lia |].
  cbn [seq failed_attempts flat_map]. fold (failed_attempts url retries (seq (S a) k)).
  rewrite requests_app, pauses_app, IH1, IH2.
  destruct (Z.of_nat a <? Z.of_nat retries - 1) eqn:E.
  - apply Z.ltb_lt in E. destruct k as [|k]; [lia |].
    split; [reflexivity |]. cbn. now rewrite Nat.sub_0_r.
  - apply Z.ltb_ge in E. assert (k = 0%nat) by lia. subst k.
    split; reflexivity.
Qed.

Lemma download_attempts_all_fail (net : network) (temp url : string)
  (retries k a : nat) (w : World) :
  (a + k = retries)%nat ->
  (forall attempt, (attempt < retries)%nat -> failure (net url attempt) = true) ->
  download_attempts net temp url retries (seq a k) w
  = (None,
     mkWorld (w_fs w) (w_trace w ++ failed_attempts url retries (seq a k))).
Proof.
  intros H F. revert a w H. induction k as [|k IH]; intros a w H.
  - cbn. rewrite app_nil_r. now destruct w.
  - cbn [seq download_attempts failed_attempts flat_map].
    fold (failed_attempts url retries (seq (S a) k)).
    assert (Hk : (Z.of_nat a <? Z.of_nat retries - 1) = false -> k = 0%nat).
    { intros E. apply Z.ltb_ge in E. lia. }
    assert (R : (if Z.of_nat a <? Z.of_nat retries - 1
                 then download_attempts net temp url retries (seq (S a) k)
                        (emit (Sleep 2000) (emit (Request url) w))
                 else (None, emit (Request url) w))
                = (None, mkWorld (w_fs w)
                           (w_trace w
                            ++ (if Z.of_nat a <? Z.of_nat retries - 1
                                then [Request url; Sleep 2000] else [Request url])
                            ++ failed_attempts url retries (seq (S a) k)))).
    { destruct (Z.of_nat a <? Z.of_nat retries - 1) eqn:E.
      - rewrite IH by lia. cbn [emit w_fs w_trace].
        now rewrite <- !app_assoc.
      - rewrite (Hk eq_refl). cbn. reflexivity. }
    specialize (F a ltac:(lia)).
    destruct (net url a) as [|code content]; [exact R |].
    cbn [failure] in F. apply andb_true_iff in F. destruct F as [F1 F2].
    apply negb_true_iff in F1. rewrite F1. cbn [negb].
    destruct ((400 <=? code) && (code <? 600)); [exact R |].
    destruct content; [exact R | discriminate].
Qed.

Lemma download_attempts_bounded (net : network) (temp url : string)
  (retries : nat) (attempts : list nat) (w : World) :
  exists t,
    w_trace (snd (download_attempts net temp url retries attempts w))
    = w_trace w ++ t
    /\ (requests t <= List.length attempts)%nat
    /\ Forall (fun ms => ms = 2000) (pauses t).
Proof.
  revert w. induction attempts as [|a attempts IH]; intros w.
  - exists []. cbn. rewrite app_nil_r. repeat split; auto.
  - cbn [download_attempts].
    assert (One : exists t,
               w_trace (emit (Request url) w) = w_trace w ++ t
               /\ (requests t <= List.length (a :: attempts))%nat
               /\ Forall (fun ms => ms = 2000) (pauses t)).
    { exists [Request url]. cbn. repeat split; auto. lia. }
    assert (R : exists t,
               w_trace (snd (if Z.of_nat a <? Z.of_nat retries - 1
                             then download_attempts net temp url retries attempts
                                    (emit (Sleep 2000) (emit (Request url) w))
                             else (None, emit (Request url) w)))
               = w_trace w ++ t
               /\ (requests t <= List.length (a :: attempts))%nat
               /\ Forall (fun ms => ms = 2000) (pauses t)).
    { destruct (Z.of_nat a <? Z.of_nat retries - 1); [| exact One].
      destruct (IH (emit (Sleep 2000) (emit (Request url) w))) as (t & E & B & P).
      exists ([Request url; Sleep 2000] ++ t). rewrite E. cbn [emit w_trace].
      split; [now rewrite <- !app_assoc |].
      rewrite requests_app, pauses_app. cbn. split; [lia |].
      constructor; [reflexivity | exact P]. }
    destruct (net url a) as [|code content]; [exact R |].
    destruct (code =? 404); [exact One |]. cbn [negb].
    destruct ((400 <=? code) && (code <? 600)); [exact R |].
    destruct content as [|members]; [exact R |].
    destruct (first_csv members) as [[filename f]|]; exact One.
Qed.

(** C6. A 404 answer to the first request ends the fetch at once: [None]
    after one request, without pause or retry.  When every attempt fails
    otherwise (no answer, an HTTP error other than 404, an answer that is
    no archive), the fetch makes [retries] requests, pauses two seconds
    between consecutive ones, and returns [None]; the file system is not
    touched.  Whatever the answers, at most [retries] requests are made and
    every pause lasts two seconds; the result is a value, never an
    exception. *)
Theorem fetch_not_found_once_else_bounded_retry (net : network)
  (temp url : string) (retries : nat) (w : World) :
  (forall content, (0 < retries)%nat -> net url 0%nat = Response 404 content ->
     download_and_extract net temp url retries w = (None, emit (Request url) w))
  /\ ((forall attempt, (attempt < retries)%nat -> failure (net url attempt) = true) ->
      exists t,
        download_and_extract net temp url retries w
        = (None, mkWorld (w_fs w) (w_trace w ++ t))
        /\ requests t = retries
        /\ pauses t = repeat 2000 (retries - 1))
  /\ (exists t,
        w_trace (snd (download_and_extract net temp url retries w)) = w_trace w ++ t
        /\ (requests t <= retries)%nat
        /\ Forall (fun ms => ms = 2000) (pauses t)).
Proof.
  unfold download_and_extract. split; [| split].
  - intros content Hpos H. destruct retries as [|n]; [lia |].
    cbn [seq download_attempts]. rewrite H. reflexivity.
  - intros F. exists (failed_attempts url retries (seq 0 retries)).
    split; [now apply download_attempts_all_fail |].
    now apply failed_attempts_count.
  - destruct (download_attempts_bounded net temp url retries (seq 0 retries) w)
      as (t & E & B & P).
    exists t. rewrite length_seq in B. auto.
Qed.

(* ================================================================= *)
(** ** The locator *)

Lemma lex_leb_midnight (d h mi s us : Z) :
  1 <= d -> 0 <= h -> 0 <= mi -> 0 <= s -> 0 <= us ->
  lex_leb [1; 0; 0; 0; 0] [d; h; mi; s; us] = true.
Proof.
  intros. cbn [lex_leb].
  repeat match goal with
         | |- context [?a <? ?b] => destruct (Z.ltb_spec a b)
         | |- context [?a =? ?b] => destruct (Z.eqb_spec a b)
         end; cbn; trivial; lia.
Qed.

(** The first instant of a month is not after [now] exactly when the month
    is not after the month of [now]. *)
Lemma dt_leb_first_of_month (y m : Z) (now : datetime) :
  valid_datetime now ->
  dt_leb (mkDT y m 1 0 0 0 0) now
  = (y <? year now) || ((y =? year now) && (m <=? month now)).
Proof.
  intros (_ & _ & [Hd _] & [Hh _] & [Hmi _] & [Hs _] & [Hus _]).
  unfold dt_leb, dt_fields. cbn [year month day hour minute second microsecond].
  change (lex_leb [y; m; 1; 0; 0; 0; 0]
            [year now; month now; day now; hour now; minute now; second now;
             microsecond now])
    with ((y <? year now)
          || ((y =? year now)
              && ((m <? month now)
                  || ((m =? month now)
                      && lex_leb [1; 0; 0; 0; 0]
                           [day now; hour now; minute now; second now;
                            microsecond now])))).
  rewrite lex_leb_midnight by assumption.
  destruct (Z.ltb_spec y (year now)), (Z.eqb_spec y (year now)),
    (Z.ltb_spec m (month now)), (Z.eqb_spec m (month now)),
    (Z.leb_spec m (month now)); cbn; trivial; lia.
Qed.

Lemma make_datetime_first (y m : Z) :
  1 <= y <= 9999 -> 1 <= m <= 12 ->
  make_datetime y m 1 = Some (mkDT y m 1 0 0 0 0).
Proof.
  intros Hy Hm. unfold make_datetime.
  replace (1 <=? y) with true by (symmetry; apply Z.leb_le; lia).
  replace (y <=? 9999) with true by (symmetry; apply Z.leb_le; lia).
  replace (1 <=? m) with true by (symmetry; apply Z.leb_le; lia).
  replace (m <=? 12) with true by (symmetry; apply Z.leb_le; lia).
  replace (1 <=? days_in_month y m) with true; [reflexivity |].
  symmetry. apply Z.leb_le. unfold days_in_month.
  destruct (m =? 2); [destruct (is_leap y); lia |].
  destruct ((m =? 4) || (m =? 6) || (m =? 9) || (m =? 11)); lia.
Qed.

Lemma month_at_bounds (y0 : Z) (i : nat) :
  1 <= snd (month_at y0 i) <= 12.
Proof.
  unfold month_at. cbn [snd].
  pose proof (Z.mod_pos_bound (Z.of_nat i) 12 ltac:(lia)). lia.
Qed.

Lemma month_at_index (y0 : Z) (i : nat) :
  (fst (month_at y0 i) - y0) * 12 + snd (month_at y0 i) = Z.of_nat i + 1.
Proof.
  unfold month_at. cbn [fst snd].
  pose proof (Z.div_mod (Z.of_nat i) 12 ltac:(lia)). lia.
Qed.

Lemma month_at_succ (y0 : Z) (i : nat) :
  month_at y0 (S i)
  = if snd (month_at y0 i) =? 12
    then (fst (month_at y0 i) + 1, 1)
    else (fst (month_at y0 i), snd (month_at y0 i) + 1).
Proof.
  pose proof (month_at_index y0 i) as A.
  pose proof (month_at_index y0 (S i)) as B.
  pose proof (month_at_bounds y0 i) as C.
  pose proof (month_at_bounds y0 (S i)) as D.
  destruct (month_at y0 i) as [y m], (month_at y0 (S i)) as [y' m'].
  cbn [fst snd] in *.
  destruct (Z.eqb_spec m 12); f_equal; nia.
Qed.

Section Generate.

Variables symbol interval : string.
Variable now : datetime.
Hypothesis now_valid : valid_datetime now.
Hypothesis not_last_month : ~ (year now = 9999 /\ month now = 12).

Variable y0 : Z.

(** The loop, entered at month number [j] counted from January of the
    start year, with [n] months left up to the month of [now]. *)
Lemma generate_loop_months (n j fuel : nat) (zip_links : list string) :
  1 <= y0 ->
  Z.of_nat j + Z.of_nat n = (year now - y0) * 12 + month now ->
  (n < fuel)%nat ->
  generate_loop fuel symbol interval now
    (mkDT (fst (month_at y0 j)) (snd (month_at y0 j)) 1 0 0 0 0) zip_links
  = Returned (zip_links
              ++ map (url_of_month symbol interval) (map (month_at y0) (seq j n))).
Proof.
  intros Hy0. revert j fuel zip_links.
  induction n as [|n IH]; intros j fuel zip_links Hj Hfuel;
    (destruct fuel as [|fuel]; [lia |]); cbn [generate_loop];
    rewrite (dt_leb_first_of_month _ _ _ now_valid);
    pose proof (month_at_index y0 j) as I;
    pose proof (month_at_bounds y0 j) as B;
    destruct now_valid as (Hy & Hm & _).
  - replace (_ || _) with false.
    + cbn. now rewrite app_nil_r.
    + symmetry. apply orb_false_iff. split; [apply Z.ltb_ge; nia |].
      destruct (Z.eqb_spec (fst (month_at y0 j)) (year now)); [| reflexivity].
      apply Z.leb_gt. nia.
  - replace (_ || _) with true.
    + cbn [year month].
      assert (N : (if snd (month_at y0 j) =? 12
                   then make_datetime (fst (month_at y0 j) + 1) 1 1
                   else make_datetime (fst (month_at y0 j))
                                      (snd (month_at y0 j) + 1) 1)
                  = Some (mkDT (fst (month_at y0 (S j))) (snd (month_at y0 (S j)))
                               1 0 0 0 0)).
      { rewrite (month_at_succ y0 j).
        destruct (Z.eqb_spec (snd (month_at y0 j)) 12); cbn [fst snd];
          apply make_datetime_first; lia. }
      rewrite N, IH by lia.
      cbn [seq map]. rewrite <- app_assoc. reflexivity.
    + symmetry. apply orb_true_iff.
      destruct (Z.ltb_spec (fst (month_at y0 j)) (year now)); [now left | right].
      apply andb_true_iff. split; [apply Z.eqb_eq | apply Z.leb_le]; nia.
Qed.

End Generate.

(** The loop bound is never reached, whatever the clock reads. *)
Lemma generate_loop_total (symbol interval : string) (now : datetime)
  (fuel : nat) (current : datetime) (zip_links : list string) :
  1 <= month current <= 12 ->
  (0 < fuel)%nat ->
  12 * (year now - year current) + 13 - month current < Z.of_nat fuel ->
  generate_loop fuel symbol interval now current zip_links <> OutOfFuel.
Proof.
  revert current zip_links.
  induction fuel as [|fuel IH]; intros current zip_links Hm Hpos Hfuel; [lia |].
  cbn [generate_loop].
  destruct (dt_leb current now) eqn:E; [| discriminate].
  assert (Hy : year current <= year now).
  { unfold dt_leb, dt_fields in E. cbn [lex_leb] in E.
    apply orb_true_iff in E. destruct E as [E | E].
    - apply Z.ltb_lt in E. lia.
    - apply andb_true_iff in E. destruct E as [E _]. apply Z.eqb_eq in E. lia. }
  destruct (Z.eqb_spec (month current) 12) as [M | M].
  - unfold make_datetime.
    destruct (_ && _); [| discriminate].
    apply IH; cbn [year month]; lia.
  - unfold make_datetime.
    destruct (_ && _); [| discriminate].
    apply IH; cbn [year month]; lia.
Qed.

Lemma generate_urls_by_pattern_total (symbol interval : string) (now : datetime) :
  generate_urls_by_pattern symbol interval now <> OutOfFuel.
Proof.
  unfold generate_urls_by_pattern.
  assert (S : make_datetime (start_year symbol) 1 1
              = Some (mkDT (start_year symbol) 1 1 0 0 0 0)).
  { unfold start_year. now destruct (String.eqb symbol "BTCUSDT"). }
  rewrite S. apply generate_loop_total; cbn [year month]; lia.
Qed.

Lemma seq_strictly_sorted (a n : nat) :
  StronglySorted (fun i j => (i < j)%nat) (seq a n).
Proof.
  revert a. induction n as [|n IH]; intros a; cbn [seq]; constructor; [apply IH |].
  apply Forall_forall. intros j Hj. apply in_seq in Hj. lia.
Qed.

Lemma months_from_In (y0 : Z) (n : nat) (y m : Z) :
  In (y, m) (months_from y0 n)
  <-> 1 <= m <= 12 /\ y0 * 12 + 1 <= y * 12 + m <= y0 * 12 + Z.of_nat n.
Proof.
  unfold months_from. rewrite in_map_iff. split.
  - intros (i & E & Hi). apply in_seq in Hi.
    pose proof (month_at_index y0 i) as I.
    pose proof (month_at_bounds y0 i) as B.
    rewrite E in I, B. cbn [fst snd] in I, B. lia.
  - intros (Hm & Hlo & Hhi).
    exists (Z.to_nat ((y - y0) * 12 + m - 1)). split.
    + pose proof (month_at_index y0 (Z.to_nat ((y - y0) * 12 + m - 1))) as I.
      pose proof (month_at_bounds y0 (Z.to_nat ((y - y0) * 12 + m - 1))) as B.
      destruct (month_at y0 _) as [y' m']. cbn [fst snd] in I, B.
      rewrite Z2Nat.id in I by lia. f_equal; lia.
    + apply in_seq. lia.
Qed.

Lemma months_from_sorted (y0 : Z) (n : nat) :
  StronglySorted (fun a b => fst a * 12 + snd a < fst b * 12 + snd b)
                 (months_from y0 n).
Proof.
  unfold months_from. apply StronglySorted_map.
  eapply StronglySorted_weaken_In; [| apply seq_strictly_sorted].
  intros i j _ _ H. cbv beta in *.
  pose proof (month_at_index y0 i). pose proof (month_at_index y0 j). lia.
Qed.

Lemma months_from_NoDup (y0 : Z) (n : nat) : NoDup (months_from y0 n).
Proof.
  unfold months_from. apply Finite.Injective_map_NoDup; [| apply seq_NoDup].
  intros i j E.
  pose proof (month_at_index y0 i) as I. pose proof (month_at_index y0 j) as J.
  rewrite E in I. lia.
Qed.

(** C7, as amended. The listing request having failed, and the clock
    reading a date from 1 January of the symbol's start year on (2017 for
    BTCUSDT, 2018 otherwise; December 9999, whose successor Python's
    [datetime] cannot build, left out), the locator returns the generated
    identifiers: one for every month from January of the start year through
    the month of the clock, none left out, oldest first.  The sequence is
    not empty. *)
Theorem fallback_covers_every_month (symbol interval : string) (now : datetime) :
  valid_datetime now ->
  start_year symbol <= year now ->
  ~ (year now = 9999 /\ month now = 12) ->
  let months :=
    months_from (start_year symbol)
      (Z.to_nat ((year now - start_year symbol) * 12 + month now)) in
  get_zip_links symbol interval ListingFails now
  = Returned (map (url_of_month symbol interval) months)
  /\ months <> []
  /\ (forall y m,
        In (y, m) months
        <-> 1 <= m <= 12
            /\ start_year symbol * 12 + 1 <= y * 12 + m
               <= year now * 12 + month now)
  /\ NoDup months
  /\ StronglySorted (fun a b => fst a * 12 + snd a < fst b * 12 + snd b) months.
Proof.
  intros V Hstart Hlast months.
  pose proof V as (Hy & Hm & _).
  assert (Hy0 : 1 <= start_year symbol).
  { unfold start_year. destruct (String.eqb symbol "BTCUSDT"); lia. }
  split; [| split; [| split; [| split]]].
  - cbn [get_zip_links]. unfold generate_urls_by_pattern.
    rewrite make_datetime_first by lia.
    replace (mkDT (start_year symbol) 1 1 0 0 0 0)
      with (mkDT (fst (month_at (start_year symbol) 0))
                 (snd (month_at (start_year symbol) 0)) 1 0 0 0 0)
      by (unfold month_at; cbn [fst snd]; f_equal; cbn; lia).
    rewrite (generate_loop_months symbol interval now V Hlast (start_year symbol)
               (Z.to_nat ((year now - start_year symbol) * 12 + month now)));
      [reflexivity | exact Hy0 | lia | lia].
  - unfold months. intros E.
    assert (I : In (start_year symbol, 1) (months_from (start_year symbol)
                  (Z.to_nat ((year now - start_year symbol) * 12 + month now)))).
    { apply months_from_In. lia. }
    rewrite E in I. exact I.
  - intros y m. unfold months. rewrite months_from_In. split; intros; lia.
  - apply months_from_NoDup.
  - apply months_from_sorted.
Qed.

(** C7, counterexample. With the clock before the start year the loop body
    never runs: the fallback returns the empty sequence. *)
Lemma fallback_empty_before_start_year :
  valid_datetime now_2016
  /\ get_zip_links "ETHUSDT" "4h" ListingFails now_2016 = Returned [].
Proof.
  split; [| reflexivity]. unfold valid_datetime, now_2016. cbn. lia.
Qed.

(** The clock reading 3 November 2025: 107 months for BTCUSDT. *)
Lemma fallback_covers_every_month_witness :
  valid_datetime now_2025
  /\ get_zip_links "BTCUSDT" "4h" ListingFails now_2025
     = Returned (map (url_of_month "BTCUSDT" "4h") (months_from 2017 107))
  /\ In (2017, 1) (months_from 2017 107)
  /\ In (2025, 11) (months_from 2017 107).
Proof.
  assert (V : valid_datetime now_2025)
    by (unfold valid_datetime, now_2025; cbn; lia).
  split; [exact V |].
  destruct (fallback_covers_every_month "BTCUSDT" "4h" now_2025 V)
    as (G & _ & I & _).
  - cbn. lia.
  - cbn. lia.
  - split; [exact G |].
    split; apply I; cbn; lia.
Defined.

(** Three attempts allowed: one request on 404, three with two pauses when
    nothing answers. *)
Lemma fetch_not_found_once_else_bounded_retry_witness :
  download_and_extract net_404 "temp_BTCUSDT" "u" 3 w_empty
  = (None, emit (Request "u") w_empty)
  /\ exists t,
      download_and_extract net_down "temp_BTCUSDT" "u" 3 w_empty
      = (None, mkWorld (w_fs w_empty) (w_trace w_empty ++ t))
      /\ requests t = 3%nat
      /\ pauses t = repeat 2000 (3 - 1).
Proof.
  split.
  - destruct (fetch_not_found_once_else_bounded_retry net_404 "temp_BTCUSDT" "u" 3
                w_empty) as (A & _ & _).
    apply (A NotZip); [lia | reflexivity].
  - destruct (fetch_not_found_once_else_bounded_retry net_down "temp_BTCUSDT" "u" 3
                w_empty) as (_ & B & _).
    apply B. intros attempt _. reflexivity.
Defined.

(* ================================================================= *)
(** ** The orchestrator *)

Lemma dir_exists_rmtree (d : string) (fs : FS) :
  dir_exists d (rmtree d fs) = false.
Proof.
  unfold dir_exists, rmtree. cbn [fs_dirs].
  induction (fs_dirs fs) as [|d' ds IH]; [reflexivity |].
  cbn [filter]. destruct (String.eqb d d') eqn:E; cbn [negb andb]; [exact IH |].
  destruct (negb (prefix (d ++ "/") d')); [| exact IH].
  cbn [existsb]. now rewrite E, IH.
Qed.

Lemma files_below_rmtree (d p : string) (fs : FS) :
  prefix (d ++ "/") p = true -> fs_lookup p (fs_files (rmtree d fs)) = None.
Proof.
  intros H. unfold rmtree. cbn [fs_files].
  induction (fs_files fs) as [|[p' f] files IH]; [reflexivity |].
  cbn [filter fst]. destruct (prefix (d ++ "/") p') eqn:E; cbn [negb]; [exact IH |].
  cbn [fs_lookup].
  destruct (String.eqb_spec p p') as [-> | _]; [congruence | exact IH].
Qed.

(** After [cleanup] the scratch directory does not exist. *)
Lemma cleanup_removes (symbol : string) (fs : FS) :
  dir_exists (temp_dir symbol) (cleanup symbol fs) = false.
Proof.
  unfold cleanup. destruct (dir_exists (temp_dir symbol) fs) eqn:E; [| exact E].
  apply dir_exists_rmtree.
Qed.

Section CollectProperties.

Variable parse_numeric : string -> option Q.
Variable sort_rows : (row -> value) -> list row -> list row.

(** Once a run reaches the merge stage, the scratch directory is gone
    when [collect] returns, whether the merge gave a dataset or [None]. *)
Lemma collect_cleans_up_after_merge (env : Env)
  (symbol interval out : string) (w : World) (url : string)
  (zip_links : list string) :
  get_zip_links symbol interval (env_listing env) (env_now env)
  = Returned (url :: zip_links) ->
  fst (fst (fetch_all (env_net env) symbol (url :: zip_links) [] [] w)) <> [] ->
  dir_exists (temp_dir symbol)
    (w_fs (snd (collect parse_numeric sort_rows env symbol interval out w)))
  = false.
Proof.
  intros L F. unfold collect. rewrite L.
  destruct (fetch_all (env_net env) symbol (url :: zip_links) [] [] w)
    as [[csv_files failed] w1].
  cbn [fst] in F. destruct csv_files as [|p ps]; [congruence |].
  destruct (merge_csv_files _ _ _ _ _ _) as [df fs2].
  cbn [snd w_fs]. apply cleanup_removes.
Qed.

End CollectProperties.

(** C2, at the failing inputs. A collector is built, which makes the
    scratch directory, and run.  When the listing names no archive, and
    when no archive can be fetched, [collect] returns [None] through an
    early [return] that does not pass by [cleanup]: the scratch directory
    is still there when the run is over. *)
Theorem collect_early_return_leaves_scratch :
  (let (result, w) := run parse_integer stable_sort env_no_archive
                          "ETHUSDT" "4h" "ETHUSDT_4h_full.csv" w_empty in
   result = Returned None
   /\ dir_exists "temp_ETHUSDT" (w_fs w) = true)
  /\ (let (result, w) := run parse_integer stable_sort env_all_missing
                             "ETHUSDT" "4h" "ETHUSDT_4h_full.csv" w_empty in
      result = Returned None
      /\ requests (w_trace w) = 1%nat
      /\ dir_exists "temp_ETHUSDT" (w_fs w) = true).
Proof. split; cbn; auto. Qed.

(** A run that reaches the merge stage: the dataset is returned in
    ascending order, the output file is written, one request and one pause
    of a tenth of a second are made, and the scratch directory is gone. *)
Example collect_full_run :
  let (result, w) := run parse_integer stable_sort env_one_archive
                         "ETHUSDT" "4h" "ETHUSDT_4h_full.csv" w_empty in
  result = Returned (Some (mkDF ("datetime" :: columns)
                                [VTime t_1 :: kline t_1 "eth";
                                 VTime t_2 :: kline t_2 "eth"]))
  /\ w_trace w = [Request archive_url; Sleep 100]
  /\ dir_exists "temp_ETHUSDT" (w_fs w) = false
  /\ fs_lookup "temp_ETHUSDT/ETHUSDT-4h-2018-01.csv" (fs_files (w_fs w)) = None
  /\ fs_lookup "ETHUSDT_4h_full.csv" (fs_files (w_fs w))
     = Some (Csv (map VStr ("datetime" :: columns)
                  :: [VTime t_1 :: kline t_1 "eth"; VTime t_2 :: kline t_2 "eth"])).
Proof. cbn. repeat split. Qed.

(* ================================================================= *)
(** * Further properties *)

(** ** Paths *)

Lemma string_append_assoc (a b c : string) :
  ((a ++ b) ++ c)%string = (a ++ (b ++ c))%string.
Proof. induction a as [|x a IH]; cbn; [reflexivity | now rewrite IH]. Qed.

Lemma string_append_nil_r (a : string) : (a ++ "")%string = a.
Proof. induction a as [|x a IH]; cbn; [reflexivity | now rewrite IH]. Qed.

Lemma string_length_append (a b : string) :
  String.length (a ++ b) = (String.length a + String.length b)%nat.
Proof. induction a as [|x a IH]; cbn; [reflexivity | now rewrite IH]. Qed.

Lemma prefix_append (s t : string) : prefix s (s ++ t) = true.
Proof.
  induction s as [|x s IH]; cbn; [now destruct t |].
  destruct (ascii_dec x x); [exact IH | congruence].
Qed.

Lemma split_slash_cons (s : string) : exists x xs, split_slash s = x :: xs.
Proof.
  destruct s as [|c s]; cbn; [eauto |].
  destruct (Ascii.eqb c "/"); [eauto |].
  destruct (split_slash s); eauto.
Qed.

Lemma join_slash_cons (d c : string) (rest : list string) :
  join_slash (d :: c :: rest) = (d ++ "/" ++ join_slash (c :: rest))%string.
Proof. reflexivity. Qed.

(** Joining what was split gives the text back. *)
Lemma join_split_slash (s : string) : join_slash (split_slash s) = s.
Proof.
  induction s as [|c s IH]; [reflexivity |].
  cbn [split_slash]. destruct (Ascii.eqb_spec c "/") as [-> | N].
  - destruct (split_slash_cons s) as (x & xs & E). rewrite E in *.
    rewrite join_slash_cons, IH. reflexivity.
  - destruct (split_slash s) as [|x [|y ys]].
    + cbn [join_slash] in IH. now rewrite <- IH.
    + cbn [join_slash] in IH |- *. now rewrite IH.
    + rewrite join_slash_cons in IH |- *. rewrite <- IH. reflexivity.
Qed.

(** Text without a slash added at the end goes to the last component. *)
Lemma split_slash_append (t : string) :
  split_slash t = [t] ->
  forall a, exists init l,
    split_slash a = init ++ [l]
    /\ split_slash (a ++ t) = init ++ [(l ++ t)%string].
Proof.
  intros Ht. induction a as [|c a (init & l & E1 & E2)].
  - exists [], EmptyString. cbn. now rewrite Ht.
  - cbn [String.append split_slash]. rewrite E1, E2.
    destruct (Ascii.eqb c "/").
    + exists (EmptyString :: init), l. split; reflexivity.
    + destruct init as [|i init]; cbn [app].
      * exists [], (String c l). split; reflexivity.
      * exists (String c i :: init), l. split; reflexivity.
Qed.

Lemma substring_all (s : string) : substring 0 (String.length s) s = s.
Proof. induction s as [|c s IH]; cbn; [reflexivity | now rewrite IH]. Qed.

Lemma substring_split (s : string) :
  forall n, (n <= String.length s)%nat ->
    s = (substring 0 n s ++ substring n (String.length s - n) s)%string.
Proof.
  induction s as [|c s IH]; intros [|n] H; cbn in H |- *; try lia.
  - reflexivity.
  - now rewrite substring_all.
  - rewrite <- IH by lia. reflexivity.
Qed.

Lemma ends_with_append (suffix s : string) :
  ends_with suffix s = true -> exists a, s = (a ++ suffix)%string.
Proof.
  unfold ends_with. intros H. apply andb_true_iff in H. destruct H as [L E].
  apply Nat.leb_le in L. apply String.eqb_eq in E.
  exists (substring 0 (String.length s - String.length suffix) s).
  pose proof (substring_split s (String.length s - String.length suffix)
                ltac:(lia)) as K.
  replace (String.length s - (String.length s - String.length suffix))%nat
    with (String.length suffix) in K by lia.
  rewrite E in K. exact K.
Qed.

Lemma split_slash_app_slash (a b : string) :
  split_slash (a ++ "/" ++ b) = split_slash a ++ split_slash b.
Proof.
  induction a as [|c a IH]; [reflexivity |].
  change (String c a ++ "/" ++ b)%string with (String c (a ++ "/" ++ b)).
  cbn [split_slash]. rewrite IH.
  destruct (Ascii.eqb c "/"); [reflexivity |].
  destruct (split_slash_cons a) as (x & xs & E). now rewrite E.
Qed.

(** The components of a text hold no slash. *)
Lemma split_slash_part (s x : string) :
  In x (split_slash s) -> split_slash x = [x].
Proof.
  revert x. induction s as [|c s IH]; intros x H.
  - destruct H as [<- | []]. reflexivity.
  - cbn [split_slash] in H. destruct (Ascii.eqb c "/") eqn:E.
    + destruct H as [<- | H]; [reflexivity | now apply IH].
    + destruct (split_slash_cons s) as (y & ys & Es). rewrite Es in *.
      destruct H as [<- | H].
      * cbn [split_slash]. rewrite E, (IH y) by now left. reflexivity.
      * apply IH. now right.
Qed.

Lemma split_join_slash (parts : list string) :
  parts <> [] -> (forall x, In x parts -> split_slash x = [x]) ->
  split_slash (join_slash parts) = parts.
Proof.
  induction parts as [|x [|y rest] IH]; intros N H; [congruence | |].
  - cbn [join_slash]. apply H. now left.
  - rewrite join_slash_cons, split_slash_app_slash, IH.
    + rewrite (H x) by now left. reflexivity.
    + discriminate.
    + intros z Hz. apply H. now right.
Qed.

Lemma join_slash_app (l1 l2 : list string) :
  l1 <> [] -> l2 <> [] ->
  join_slash (l1 ++ l2) = (join_slash l1 ++ "/" ++ join_slash l2)%string.
Proof.
  intros N1 N2. induction l1 as [|x [|y l1] IH]; [congruence | |].
  - destruct l2 as [|z l2]; [congruence | reflexivity].
  - change ((x :: y :: l1) ++ l2) with (x :: (y :: l1) ++ l2).
    cbn [app]. rewrite !join_slash_cons.
    change (y :: l1 ++ l2) with ((y :: l1) ++ l2).
    rewrite IH by discriminate. now rewrite !string_append_assoc.
Qed.

(** A text that ends in a slash has an empty last component. *)
Lemma ends_in_slash_split (s : string) :
  ends_in_slash s = true -> In EmptyString (split_slash s).
Proof.
  assert (K : forall s, ends_in_slash s = true ->
                exists init, split_slash s = init ++ [EmptyString] /\ init <> []).
  { clear s. induction s as [|c s IH]; [discriminate |].
    cbn [ends_in_slash split_slash]. destruct s as [|c' s'].
    - intros ->. exists [EmptyString]. split; [reflexivity | discriminate].
    - intros H. destruct (IH H) as (init & E & N). rewrite E.
      destruct (Ascii.eqb c "/").
      + exists (EmptyString :: init). split; [reflexivity | discriminate].
      + destruct init as [|i init]; [congruence |].
        exists (String c i :: init). split; [reflexivity | discriminate]. }
  intros H. destruct (K s H) as (init & -> & _).
  apply in_or_app. right. now left.
Qed.

Lemma plain_part_In (l : list string) (x : string) :
  forallb plain_part l = true -> In x l -> plain_part x = true.
Proof. rewrite forallb_forall. auto. Qed.

(** A plain path is not empty, begins with no slash and ends with none. *)
Lemma plain_name_shape (d : string) :
  plain_name d = true ->
  d <> EmptyString
  /\ (forall t, leading_slashes (d ++ t) = 0%nat)
  /\ ends_in_slash d = false.
Proof.
  unfold plain_name. intros H. split; [| split].
  - intros ->. discriminate H.
  - intros t. destruct d as [|c d]; [discriminate H |].
    cbn [String.append leading_slashes]. cbn [split_slash] in H.
    destruct (Ascii.eqb c "/"); [discriminate H | reflexivity].
  - destruct (ends_in_slash d) eqn:E; [| reflexivity].
    apply ends_in_slash_split in E.
    pose proof (plain_part_In _ _ H E) as P. discriminate P.
Qed.

Lemma norm_comps_plain (initial_slashes : bool) (comps : list string) :
  forallb plain_part comps = true ->
  forall new_comps,
    norm_comps initial_slashes comps new_comps = rev new_comps ++ comps.
Proof.
  induction comps as [|c comps IH]; intros H new_comps.
  - cbn. now rewrite app_nil_r.
  - cbn [forallb] in H. apply andb_true_iff in H. destruct H as [Hc H].
    cbn [norm_comps]. unfold plain_part in Hc. apply negb_true_iff in Hc.
    apply orb_false_iff in Hc. destruct Hc as [Hc ->]. rewrite Hc.
    cbn [negb]. rewrite IH by exact H. cbn [rev]. now rewrite <- app_assoc.
Qed.

Lemma filter_all {A : Type} (f : A -> bool) (l : list A) :
  forallb f l = true -> filter f l = l.
Proof.
  induction l as [|x l IH]; cbn; [reflexivity |].
  intros H. apply andb_true_iff in H. destruct H as [Hx Hl].
  now rewrite Hx, IH.
Qed.

Lemma forallb_filter {A : Type} (f : A -> bool) (l : list A) :
  forallb f (filter f l) = true.
Proof.
  apply forallb_forall. intros x H. now apply filter_In in H.
Qed.

Lemma path_parts_plain (d : string) :
  plain_name d = true -> path_parts d = split_slash d.
Proof.
  unfold plain_name, path_parts. intros H. apply filter_all.
  rewrite forallb_forall in H |- *. intros x Hx. specialize (H x Hx).
  unfold plain_part in H. apply negb_true_iff in H. apply negb_true_iff.
  apply orb_false_iff in H. tauto.
Qed.

(** A plain path is its own text as a [Path]. *)
Lemma pure_path_plain (d : string) : plain_name d = true -> pure_path d = d.
Proof.
  intros H. destruct (plain_name_shape d H) as (_ & L & _).
  specialize (L EmptyString). rewrite string_append_nil_r in L.
  unfold pure_path, path_root. rewrite L, (path_parts_plain d H).
  destruct (split_slash_cons d) as (x & xs & E).
  rewrite <- (join_split_slash d) at 2. now rewrite E.
Qed.

(** A name that ends in [.csv] keeps its last component on extraction. *)
Lemma arcname_parts_csv_cons (name : string) :
  ends_with ".csv" name = true -> exists c rest, arcname_parts name = c :: rest.
Proof.
  intros H. apply ends_with_append in H. destruct H as (a & ->).
  destruct (split_slash_append ".csv" eq_refl a) as (init & l & _ & E).
  unfold arcname_parts. rewrite E, filter_app. cbn [filter].
  assert (L : (4 <= String.length (l ++ ".csv"))%nat)
    by (rewrite string_length_append; cbn; lia).
  assert (K : plain_part (l ++ ".csv") = true).
  { unfold plain_part.
    destruct (String.eqb_spec (l ++ ".csv") "") as [E0 |];
      [rewrite E0 in L; cbn in L; lia |].
    destruct (String.eqb_spec (l ++ ".csv") ".") as [E1 |];
      [rewrite E1 in L; cbn in L; lia |].
    destruct (String.eqb_spec (l ++ ".csv") "..") as [E2 |];
      [rewrite E2 in L; cbn in L; lia |].
    reflexivity. }
  rewrite K. destruct (filter _ init); cbn [app]; eauto.
Qed.

(** Below a plain directory, the member goes to the parts kept of its
    name: [normpath] finds nothing to change. *)
Lemma extract_path_plain (d name : string) :
  plain_name d = true -> ends_with ".csv" name = true ->
  extract_path d name = (d ++ "/" ++ join_slash (arcname_parts name))%string.
Proof.
  intros Hd Hn.
  destruct (plain_name_shape d Hd) as (Ne & L & Es).
  destruct (arcname_parts_csv_cons name Hn) as (c & rest & E).
  assert (Pl : forallb plain_part (arcname_parts name) = true)
    by apply forallb_filter.
  assert (Sf : forall x, In x (arcname_parts name) -> split_slash x = [x]).
  { intros x Hx. apply filter_In in Hx. destruct Hx as [Hx _].
    eapply split_slash_part; eauto. }
  assert (Sp : split_slash (join_slash (arcname_parts name)) = arcname_parts name).
  { apply split_join_slash; [rewrite E; discriminate | exact Sf]. }
  assert (L0 : leading_slashes (join_slash (arcname_parts name)) = 0%nat).
  { assert (Pj : plain_name (join_slash (arcname_parts name)) = true)
      by (unfold plain_name; now rewrite Sp).
    destruct (plain_name_shape _ Pj) as (_ & L' & _).
    specialize (L' EmptyString). now rewrite string_append_nil_r in L'. }
  unfold extract_path. rewrite (pure_path_plain d Hd).
  unfold os_path_join. rewrite L0, Es. cbn [Nat.ltb Nat.leb].
  destruct (String.eqb_spec d "") as [-> | _]; [congruence |]. cbn [orb].
  unfold normpath.
  destruct (String.eqb_spec (d ++ "/" ++ join_slash (arcname_parts name)) "")
    as [E0 | _].
  { destruct d; [congruence | discriminate E0]. }
  cbv zeta. unfold path_root. rewrite L. cbn [String.eqb negb].
  rewrite split_slash_app_slash, Sp.
  rewrite norm_comps_plain.
  - cbn [rev app]. unfold path_text.
    destruct (split_slash_cons d) as (x & xs & Ed). rewrite Ed. cbn [app].
    change (x :: xs ++ arcname_parts name) with ((x :: xs) ++ arcname_parts name).
    rewrite <- Ed. rewrite join_slash_app.
    + now rewrite join_split_slash.
    + rewrite Ed. discriminate.
    + rewrite E. discriminate.
  - rewrite forallb_app. apply andb_true_iff. split; [exact Hd | exact Pl].
Qed.

(** The target of an extraction lies below the directory given. *)
Lemma below_extract_path (d name : string) :
  plain_name d = true -> ends_with ".csv" name = true ->
  below d (extract_path d name) = true.
Proof.
  intros Hd Hn. rewrite (extract_path_plain d name Hd Hn).
  unfold below. rewrite <- string_append_assoc. apply prefix_append.
Qed.


(** ** The file system under [extract] *)

Lemma fs_lookup_write_other (p q : string) (f : file) (fs : FS) :
  p <> q ->
  fs_lookup p (fs_files (write_file q f fs)) = fs_lookup p (fs_files fs).
Proof.
  intros H. cbn. now destruct (String.eqb_spec p q).
Qed.

Lemma fs_files_mkdir (d : string) (fs : FS) :
  fs_files (mkdir d fs) = fs_files fs.
Proof. unfold mkdir. now destruct (dir_exists d fs). Qed.

Lemma dir_exists_mkdir (d d' : string) (fs : FS) :
  dir_exists d' (mkdir d fs) = String.eqb d' d || dir_exists d' fs.
Proof.
  unfold mkdir. destruct (dir_exists d fs) eqn:E; [| reflexivity].
  destruct (String.eqb_spec d' d) as [-> | _]; [now rewrite E | reflexivity].
Qed.

Lemma fs_files_makedirs (dirs : list string) (fs : FS) :
  fs_files (makedirs dirs fs) = fs_files fs.
Proof.
  unfold makedirs. revert fs. induction dirs as [|d dirs IH]; intros fs;
    [reflexivity |].
  cbn [fold_left]. now rewrite IH, fs_files_mkdir.
Qed.

Lemma dir_exists_makedirs (dirs : list string) (d' : string) (fs : FS) :
  dir_exists d' (makedirs dirs fs)
  = existsb (String.eqb d') dirs || dir_exists d' fs.
Proof.
  unfold makedirs. revert fs. induction dirs as [|d dirs IH]; intros fs;
    [reflexivity |].
  cbn [fold_left existsb]. rewrite IH, dir_exists_mkdir.
  now destruct (String.eqb d' d), (existsb (String.eqb d') dirs).
Qed.

Lemma dirs_above_In (x t : string) : In x (dirs_above (x ++ "/" ++ t)).
Proof.
  induction x as [|c x IH]; cbn [String.append dirs_above].
  - cbn. now left.
  - apply in_or_app. right. now apply in_map.
Qed.

(** A plain directory is among those made above a target below it. *)
Lemma upper_dirs_In (d t : string) :
  plain_name d = true -> In d (upper_dirs (d ++ "/" ++ t)).
Proof.
  intros H. unfold upper_dirs. apply filter_In. split; [apply dirs_above_In |].
  rewrite (path_parts_plain d H).
  destruct (rev (split_slash d)) as [|l ls] eqn:E.
  - destruct (split_slash_cons d) as (x & xs & Ed). rewrite Ed in E.
    apply (f_equal (@List.length string)) in E.
    rewrite length_rev in E. discriminate E.
  - assert (I : In l (split_slash d))
      by (apply in_rev; rewrite E; now left).
    pose proof (plain_part_In _ _ H I) as P. unfold plain_part in P.
    apply negb_true_iff, orb_false_iff in P. destruct P as [_ ->].
    reflexivity.
Qed.

Lemma fs_lookup_extract (d name : string) (f : file) (fs : FS) (p : string) :
  fs_lookup p (fs_files (extract d name f fs))
  = if String.eqb p (extract_path d name) then Some f
    else fs_lookup p (fs_files fs).
Proof.
  unfold extract. cbn [write_file fs_files fs_lookup].
  now rewrite fs_files_makedirs.
Qed.

(** What [extract] leaves: the member at its target, every other file as
    it was, every directory that was there, and the directory given. *)
Lemma extract_effect (d name : string) (f : file) (fs : FS) :
  fs_lookup (extract_path d name) (fs_files (extract d name f fs)) = Some f
  /\ (forall p, p <> extract_path d name ->
        fs_lookup p (fs_files (extract d name f fs)) = fs_lookup p (fs_files fs))
  /\ (forall d', dir_exists d' fs = true ->
        dir_exists d' (extract d name f fs) = true)
  /\ (plain_name d = true -> ends_with ".csv" name = true ->
      dir_exists d (extract d name f fs) = true).
Proof.
  split; [| split; [| split]].
  - rewrite fs_lookup_extract. now rewrite String.eqb_refl.
  - intros p N. rewrite fs_lookup_extract.
    now destruct (String.eqb_spec p (extract_path d name)).
  - intros d' D. unfold extract.
    change (dir_exists d' (write_file ?p f ?fs')) with (dir_exists d' fs').
    rewrite dir_exists_makedirs, D. apply orb_true_r.
  - intros Hd Hn. unfold extract.
    change (dir_exists d (write_file ?p f ?fs')) with (dir_exists d fs').
    rewrite dir_exists_makedirs, (extract_path_plain d name Hd Hn).
    replace (existsb _ _) with true; [reflexivity |].
    symmetry. apply existsb_exists. exists d.
    split; [now apply upper_dirs_In | apply String.eqb_refl].
Qed.

(** What the standard library makes of some member names and directories:
    the path [pathlib] returns, and the path [zipfile] writes. *)
Example paths_of_member_names :
  path_join "temp_BTCUSDT" "k.csv" = "temp_BTCUSDT/k.csv"
  /\ extract_path "temp_BTCUSDT" "k.csv" = "temp_BTCUSDT/k.csv"
  /\ path_join "temp_BTCUSDT" "/abs/k.csv" = "/abs/k.csv"
  /\ extract_path "temp_BTCUSDT" "/abs/k.csv" = "temp_BTCUSDT/abs/k.csv"
  /\ path_join "temp_BTCUSDT" "//abs/k.csv" = "//abs/k.csv"
  /\ path_join "temp_BTCUSDT" "///abs/k.csv" = "/abs/k.csv"
  /\ path_join "temp_BTCUSDT" "a//b/./k.csv" = "temp_BTCUSDT/a/b/k.csv"
  /\ extract_path "temp_BTCUSDT" "a//b/./k.csv" = "temp_BTCUSDT/a/b/k.csv"
  /\ path_join "temp_BTCUSDT" "a/../k.csv" = "temp_BTCUSDT/a/../k.csv"
  /\ extract_path "temp_BTCUSDT" "a/../k.csv" = "temp_BTCUSDT/a/k.csv"
  /\ path_join "temp_BTCUSDT" "/../k.csv" = "/../k.csv"
  /\ extract_path "temp_BTCUSDT" "/../k.csv" = "temp_BTCUSDT/k.csv"
  /\ path_join "temp_a//b" "./k.csv" = "temp_a/b/k.csv"
  /\ path_join "temp_a/../b" "k.csv" = "temp_a/../b/k.csv"
  /\ extract_path "temp_a/../b" "k.csv" = "b/k.csv"
  /\ upper_dirs "temp_BTCUSDT/a/b/k.csv"
     = ["temp_BTCUSDT"; "temp_BTCUSDT/a"; "temp_BTCUSDT/a/b"]
  /\ upper_dirs "temp_BTCUSDT/k.csv" = ["temp_BTCUSDT"]
  /\ upper_dirs "../t/k.csv" = ["../t"].
Proof. repeat split. Qed.

(** ** The fetcher, attempt by attempt *)

(** Every answer is of one kind: a failure that is retried, an answer that
    ends the fetch empty-handed, or a payload. *)
Lemma response_kinds (r : response) :
  (failure r = true /\ terminal r = false /\ delivers r = None)
  \/ (failure r = false /\ terminal r = true /\ delivers r = None)
  \/ (failure r = false /\ terminal r = false /\ exists nf, delivers r = Some nf).
Proof.
  destruct r as [|code content]; cbn; [auto |].
  destruct (code =? 404); cbn; [auto |].
  destruct ((400 <=? code) && (code <? 600)); cbn; [auto |].
  destruct content as [|members]; cbn; [auto |].
  destruct (first_csv members) as [nf|]; [| auto].
  right. right. repeat split. now exists nf.
Qed.

Lemma last_named_In (name : string) (members : list (string * file)) :
  forall f, last_named name f members = f
            \/ In (name, last_named name f members) members.
Proof.
  induction members as [|[n g] members IH]; intros f; [now left |].
  cbn [last_named].
  destruct (IH (if String.eqb n name then g else f)) as [E | I].
  - rewrite E. destruct (String.eqb_spec n name) as [-> | _];
      [right; now left | now left].
  - right. now right.
Qed.

Lemma first_csv_Some (members : list (string * file)) (name : string) (f : file) :
  first_csv members = Some (name, f) ->
  ends_with ".csv" name = true /\ In (name, f) members.
Proof.
  induction members as [|[n g] members IH]; cbn [first_csv]; [discriminate |].
  destruct (ends_with ".csv" n) eqn:E.
  - intros [= <- <-]. split; [exact E |].
    destruct (last_named_In n members g) as [-> | I]; [now left | now right].
  - intros H. destruct (IH H). split; [assumption | now right].
Qed.

Lemma delivers_csv (r : response) (name : string) (f : file) :
  delivers r = Some (name, f) -> ends_with ".csv" name = true.
Proof.
  destruct r as [|code content]; cbn [delivers]; [discriminate |].
  destruct ((code =? 404) || ((400 <=? code) && (code <? 600)));
    [discriminate |].
  destruct content as [|members]; [discriminate |].
  intros H. now destruct (first_csv_Some _ _ _ H).
Qed.

(** One attempt that fails and is not the last: a request, a pause, and the
    loop goes on. *)
Lemma download_attempts_retry (net : network) (temp url : string)
  (retries a : nat) (rest : list nat) (w : World) :
  failure (net url a) = true ->
  (S a < retries)%nat ->
  download_attempts net temp url retries (a :: rest) w
  = download_attempts net temp url retries rest
      (emit (Sleep 2000) (emit (Request url) w)).
Proof.
  intros F L. cbn [download_attempts].
  replace (Z.of_nat a <? Z.of_nat retries - 1) with true
    by (symmetry; apply Z.ltb_lt; lia).
  destruct (net url a) as [|code content]; [reflexivity |].
  cbn [failure] in F. apply andb_true_iff in F. destruct F as [F1 F2].
  apply negb_true_iff in F1. rewrite F1. cbn [negb].
  destruct ((400 <=? code) && (code <? 600)); [reflexivity |].
  destruct content; [reflexivity | discriminate].
Qed.

Lemma retried_succ (url : string) (j : nat) :
  retried url (S j) = [Request url; Sleep 2000] ++ retried url j.
Proof.
  unfold retried. cbn [seq flat_map]. f_equal.
  rewrite <- seq_shift, flat_map_concat_map, map_map.
  now rewrite <- flat_map_concat_map.
Qed.

Lemma retried_count (url : string) (j : nat) :
  requests (retried url j) = j /\ pauses (retried url j) = repeat 2000 j.
Proof.
  induction j as [|j [IH1 IH2]]; [split; reflexivity |].
  rewrite retried_succ, requests_app, pauses_app, IH1, IH2. split; reflexivity.
Qed.

Lemma download_attempts_skip_failures (net : network) (temp url : string)
  (retries j : nat) :
  forall (a m : nat) (w : World),
    (a + j < retries)%nat ->
    (forall i, (a <= i < a + j)%nat -> failure (net url i) = true) ->
    download_attempts net temp url retries (seq a (j + m)) w
    = download_attempts net temp url retries (seq (a + j) m)
        (mkWorld (w_fs w) (w_trace w ++ retried url j)).
Proof.
  induction j as [|j IH]; intros a m w L F.
  - cbn. rewrite Nat.add_0_r, app_nil_r. now destruct w.
  - cbn [Nat.add seq]. rewrite download_attempts_retry by (try apply F; lia).
    rewrite IH by (try (intros i Hi; apply F); lia).
    rewrite retried_succ. cbn [emit w_fs w_trace].
    rewrite <- !app_assoc. cbn [app].
    now replace (S a + j)%nat with (a + S j)%nat by lia.
Qed.


(** X2. An answer at attempt [k] that is 404, or an archive without a
    [.csv] member, the attempts before it having failed: the fetch returns
    [None] after [k + 1] requests, attempts no more, and leaves the file
    system as it was. *)
Theorem fetch_stops_at_terminal_answer (net : network) (temp url : string)
  (retries k : nat) (w : World) :
  (k < retries)%nat ->
  (forall i, (i < k)%nat -> failure (net url i) = true) ->
  terminal (net url k) = true ->
  exists t,
    download_and_extract net temp url retries w
    = (None, mkWorld (w_fs w) (w_trace w ++ t))
    /\ requests t = S k
    /\ pauses t = repeat 2000 k.
Proof.
  intros L F T. exists (retried url k ++ [Request url]).
  destruct (retried_count url k) as [C1 C2].
  split; [| split].
  - unfold download_and_extract.
    replace retries with (k + S (retries - S k))%nat at 2 by lia.
    rewrite (download_attempts_skip_failures net temp url retries k 0)
      by (try (intros i Hi; apply F); lia).
    cbn [Nat.add seq download_attempts].
    destruct (net url k) as [|code content]; cbn in T; [discriminate |].
    destruct (code =? 404).
    + unfold emit. cbn [w_fs w_trace]. now rewrite <- app_assoc.
    + cbn in T. destruct ((400 <=? code) && (code <? 600)); [discriminate |].
      cbn [negb]. destruct content as [|members]; [discriminate |].
      destruct (first_csv members); [discriminate |].
      unfold emit. cbn [w_fs w_trace]. now rewrite <- app_assoc.
  - rewrite requests_app, C1. cbn. lia.
  - rewrite pauses_app, C2. cbn. apply app_nil_r.
Qed.

Lemma download_attempts_effect (net : network) (temp url : string)
  (retries : nat) (attempts : list nat) (w : World) :
  (fst (download_attempts net temp url retries attempts w) = None
   /\ w_fs (snd (download_attempts net temp url retries attempts w)) = w_fs w)
  \/ (exists a name f,
        In a attempts
        /\ delivers (net url a) = Some (name, f)
        /\ fst (download_attempts net temp url retries attempts w)
           = Some (path_join temp name)
        /\ w_fs (snd (download_attempts net temp url retries attempts w))
           = extract temp name f (w_fs w)).
Proof.
  revert w. induction attempts as [|a attempts IH]; intros w; [left; auto |].
  cbn [download_attempts].
  assert (R : forall w1, w_fs w1 = w_fs w ->
            let r := if Z.of_nat a <? Z.of_nat retries - 1
                     then download_attempts net temp url retries attempts
                            (emit (Sleep 2000) w1)
                     else (None, w1) in
            (fst r = None /\ w_fs (snd r) = w_fs w)
            \/ (exists a' name f,
                  In a' (a :: attempts)
                  /\ delivers (net url a') = Some (name, f)
                  /\ fst r = Some (path_join temp name)
                  /\ w_fs (snd r) = extract temp name f (w_fs w))).
  { intros w1 E. destruct (Z.of_nat a <? Z.of_nat retries - 1); [| left; auto].
    destruct (IH (emit (Sleep 2000) w1)) as [[H1 H2] | (a' & name & f & H)].
    - left. cbn [emit w_fs] in H2. split; congruence.
    - right. exists a', name, f. cbn [emit w_fs] in H. rewrite E in H.
      destruct H as (H1 & H2 & H3 & H4).
      split; [now right |]. split; [exact H2 |]. split; assumption. }
  destruct (net url a) as [|code content] eqn:N; [now apply R |].
  destruct (code =? 404) eqn:N1; [left; auto |]. cbn [negb].
  destruct ((400 <=? code) && (code <? 600)) eqn:N2; [now apply R |].
  destruct content as [|members]; [now apply R |].
  destruct (first_csv members) as [[name f]|] eqn:N3; [| left; auto].
  right. exists a, name, f. split; [now left |].
  split; [| split; reflexivity].
  rewrite N. cbn [delivers]. now rewrite N1, N2.
Qed.

Lemma download_attempts_result_indep (net : network) (temp url : string)
  (retries : nat) (attempts : list nat) (w w' : World) :
  fst (download_attempts net temp url retries attempts w)
  = fst (download_attempts net temp url retries attempts w').
Proof.
  revert w w'. induction attempts as [|a attempts IH]; intros w w'; [reflexivity |].
  cbn [download_attempts].
  assert (R : fst (if Z.of_nat a <? Z.of_nat retries - 1
                   then download_attempts net temp url retries attempts
                          (emit (Sleep 2000) (emit (Request url) w))
                   else (None, emit (Request url) w))
              = fst (if Z.of_nat a <? Z.of_nat retries - 1
                     then download_attempts net temp url retries attempts
                            (emit (Sleep 2000) (emit (Request url) w'))
                     else (None, emit (Request url) w'))).
  { destruct (Z.of_nat a <? Z.of_nat retries - 1); [apply IH | reflexivity]. }
  destruct (net url a) as [|code content]; [exact R |].
  destruct (code =? 404); [reflexivity |]. cbn [negb].
  destruct ((400 <=? code) && (code <? 600)); [exact R |].
  destruct content as [|members]; [exact R |].
  now destruct (first_csv members) as [[name f]|].
Qed.

Lemma fetched_eq (net : network) (temp url : string) (retries : nat) (w : World) :
  fst (download_and_extract net temp url retries w) = fetched net temp url retries.
Proof. apply download_attempts_result_indep. Qed.


(** ** The loop over the links *)






(** ** What [cleanup] takes away *)

Lemma fs_lookup_rmtree_other (d p : string) (fs : FS) :
  below d p = false ->
  fs_lookup p (fs_files (rmtree d fs)) = fs_lookup p (fs_files fs).
Proof.
  intros H. unfold rmtree. cbn [fs_files]. unfold below in H.
  induction (fs_files fs) as [|[q f] files IH]; [reflexivity |].
  cbn [filter fst fs_lookup].
  destruct (prefix (d ++ "/") q) eqn:E; cbn [negb].
  - destruct (String.eqb_spec p q) as [-> | _]; [congruence | exact IH].
  - cbn [fs_lookup]. now rewrite IH.
Qed.

Lemma dir_exists_rmtree_other (d d' : string) (fs : FS) :
  d' <> d -> below d d' = false ->
  dir_exists d' (rmtree d fs) = dir_exists d' fs.
Proof.
  intros N H. unfold dir_exists, rmtree. cbn [fs_dirs]. unfold below in H.
  induction (fs_dirs fs) as [|q ds IH]; [reflexivity |].
  cbn [filter existsb].
  destruct (String.eqb_spec d q) as [<- | Nq]; cbn [negb andb].
  - rewrite IH. destruct (String.eqb_spec d' d); [congruence | reflexivity].
  - destruct (prefix (d ++ "/") q) eqn:E; cbn [negb].
    + rewrite IH. destruct (String.eqb_spec d' q) as [-> | _];
        [congruence | reflexivity].
    + cbn [existsb]. now rewrite IH.
Qed.

(** X5. [cleanup] takes away the scratch directory with everything below
    it and nothing else: a path below the directory reads nothing
    afterwards, provided the directory was there; any other path reads
    what it read before. *)
Theorem cleanup_removes_scratch_only (symbol : string) (fs : FS) (p : string) :
  dir_exists (temp_dir symbol) (cleanup symbol fs) = false
  /\ (dir_exists (temp_dir symbol) fs = true ->
      below (temp_dir symbol) p = true ->
      fs_lookup p (fs_files (cleanup symbol fs)) = None)
  /\ (below (temp_dir symbol) p = false ->
      fs_lookup p (fs_files (cleanup symbol fs)) = fs_lookup p (fs_files fs))
  /\ (p <> temp_dir symbol -> below (temp_dir symbol) p = false ->
      dir_exists p (cleanup symbol fs) = dir_exists p fs).
Proof.
  split; [apply cleanup_removes |].
  unfold cleanup. destruct (dir_exists (temp_dir symbol) fs) eqn:E.
  - split; [| split].
    + intros _ B. now apply files_below_rmtree.
    + apply fs_lookup_rmtree_other.
    + apply dir_exists_rmtree_other.
  - split; [discriminate | auto].
Qed.

(** ** What a run does to the file system *)

Lemma download_fs (net : network) (temp url : string) (retries : nat) (w : World) :
  (fetched net temp url retries = None
   /\ w_fs (snd (download_and_extract net temp url retries w)) = w_fs w)
  \/ (exists name f,
        ends_with ".csv" name = true
        /\ fetched net temp url retries = Some (path_join temp name)
        /\ w_fs (snd (download_and_extract net temp url retries w))
           = extract temp name f (w_fs w)).
Proof.
  rewrite <- (fetched_eq net temp url retries w). unfold download_and_extract.
  destruct (download_attempts_effect net temp url retries (seq 0 retries) w)
    as [H | (a & name & f & _ & D & H1 & H2)]; [now left | right].
  exists name, f. split; [exact (delivers_csv _ _ _ D) | now split].
Qed.

Lemma download_frame (net : network) (temp url : string) (retries : nat)
  (w : World) (p : string) :
  plain_name temp = true ->
  below temp p = false ->
  fs_lookup p (fs_files (w_fs (snd (download_and_extract net temp url retries w))))
  = fs_lookup p (fs_files (w_fs w)).
Proof.
  intros Pt B.
  destruct (download_fs net temp url retries w)
    as [[_ ->] | (name & f & Hcsv & _ & ->)]; [reflexivity |].
  destruct (extract_effect temp name f (w_fs w)) as (_ & Oth & _).
  apply Oth. intros ->.
  rewrite (below_extract_path _ _ Pt Hcsv) in B. discriminate.
Qed.

Lemma download_dirs (net : network) (temp url : string) (retries : nat)
  (w : World) (d : string) :
  dir_exists d (w_fs w) = true ->
  dir_exists d (w_fs (snd (download_and_extract net temp url retries w))) = true.
Proof.
  destruct (download_fs net temp url retries w)
    as [[_ ->] | (name & f & Hcsv & _ & ->)]; [auto |].
  destruct (extract_effect temp name f (w_fs w)) as (_ & _ & Up & _).
  apply Up.
Qed.

Lemma fetch_all_frame (net : network) (symbol : string) (zip_links : list string)
  (p : string) :
  plain_name (temp_dir symbol) = true ->
  below (temp_dir symbol) p = false ->
  forall csv_files failed_urls w,
    fs_lookup p (fs_files (w_fs (snd (fetch_all net symbol zip_links
                                        csv_files failed_urls w))))
    = fs_lookup p (fs_files (w_fs w)).
Proof.
  intros Pt B. induction zip_links as [|url rest IH]; intros c f w;
    [reflexivity |].
  cbn [fetch_all].
  pose proof (download_frame net (temp_dir symbol) url 3 w p Pt B) as D.
  destruct (download_and_extract net (temp_dir symbol) url 3 w) as [res w1].
  cbn [snd] in D. destruct res; rewrite IH; exact D.
Qed.

Lemma fetch_all_dirs (net : network) (symbol : string) (zip_links : list string)
  (d : string) :
  forall csv_files failed_urls w,
    dir_exists d (w_fs w) = true ->
    dir_exists d (w_fs (snd (fetch_all net symbol zip_links
                               csv_files failed_urls w))) = true.
Proof.
  induction zip_links as [|url rest IH]; intros c f w; [auto |].
  cbn [fetch_all].
  pose proof (download_dirs net (temp_dir symbol) url 3 w d) as D1.
  destruct (download_and_extract net (temp_dir symbol) url 3 w) as [res w1].
  cbn [snd] in D1.
  destruct res as [s|]; intros H; apply IH;
    change (w_fs (emit (Sleep 100) w1)) with (w_fs w1); apply D1, H.
Qed.


Lemma merge_csv_files_fs (parse_numeric : string -> option Q)
  (sort_rows : (row -> value) -> list row -> list row) (now_ms : Z)
  (csv_files : list string) (out : string) (fs : FS) :
  snd (merge_csv_files parse_numeric sort_rows now_ms csv_files out fs)
  = match fst (merge_csv_files parse_numeric sort_rows now_ms csv_files out fs) with
    | Some df => to_csv out df fs
    | None => fs
    end.
Proof.
  unfold merge_csv_files. now destruct (read_all fs csv_files).
Qed.

Lemma cleanup_frame (symbol : string) (fs : FS) (p : string) :
  below (temp_dir symbol) p = false ->
  fs_lookup p (fs_files (cleanup symbol fs)) = fs_lookup p (fs_files fs).
Proof.
  intros B. unfold cleanup.
  destruct (dir_exists (temp_dir symbol) fs); [| reflexivity].
  now apply fs_lookup_rmtree_other.
Qed.

Section RunProperties.

Variable parse_numeric : string -> option Q.
Variable sort_rows : (row -> value) -> list row -> list row.

Lemma collect_frame (env : Env) (symbol interval out : string) (w : World)
  (p : string) :
  plain_name (temp_dir symbol) = true ->
  below (temp_dir symbol) p = false -> p <> out ->
  fs_lookup p (fs_files (w_fs (snd (collect parse_numeric sort_rows env symbol
                                            interval out w))))
  = fs_lookup p (fs_files (w_fs w)).
Proof.
  intros Pt B N. unfold collect.
  destruct (get_zip_links symbol interval (env_listing env) (env_now env))
    as [[|url links]| |]; try reflexivity.
  pose proof (fetch_all_frame (env_net env) symbol (url :: links) p Pt B [] [] w)
    as F.
  destruct (fetch_all (env_net env) symbol (url :: links) [] [] w)
    as [[csv_files failed] w1].
  cbn [snd] in F. destruct csv_files as [|c cs]; [exact F |].
  pose proof (merge_csv_files_fs parse_numeric sort_rows (env_now_ms env)
                (c :: cs) out (w_fs w1)) as M.
  destruct (merge_csv_files parse_numeric sort_rows (env_now_ms env) (c :: cs)
              out (w_fs w1)) as [df fs2].
  cbn [fst snd] in M. cbn [snd w_fs].
  rewrite cleanup_frame by exact B. rewrite M, <- F.
  destruct df; [| reflexivity].
  unfold to_csv. now apply fs_lookup_write_other.
Qed.

Lemma collect_output (env : Env) (symbol interval out : string) (w w' : World)
  (df : DataFrame) :
  dir_exists (temp_dir symbol) (w_fs w) = true ->
  collect parse_numeric sort_rows env symbol interval out w
  = (Returned (Some df), w') ->
  dir_exists (temp_dir symbol) (w_fs w') = false
  /\ (forall p, below (temp_dir symbol) p = true ->
                fs_lookup p (fs_files (w_fs w')) = None)
  /\ fs_lookup out (fs_files (w_fs w'))
     = if below (temp_dir symbol) out then None
       else Some (Csv (map VStr (df_columns df) :: df_rows df)).
Proof.
  intros E. unfold collect.
  destruct (get_zip_links symbol interval (env_listing env) (env_now env))
    as [[|url links]| |]; try discriminate.
  pose proof (fetch_all_dirs (env_net env) symbol (url :: links)
                (temp_dir symbol) [] [] w E) as D.
  destruct (fetch_all (env_net env) symbol (url :: links) [] [] w)
    as [[csv_files failed] w1].
  cbn [snd] in D. destruct csv_files as [|c cs]; [discriminate |].
  pose proof (merge_csv_files_fs parse_numeric sort_rows (env_now_ms env)
                (c :: cs) out (w_fs w1)) as M.
  destruct (merge_csv_files parse_numeric sort_rows (env_now_ms env) (c :: cs)
              out (w_fs w1)) as [r fs2].
  cbn [fst snd] in M. intros [= -> <-]. subst fs2. cbn [w_fs].
  assert (C : cleanup symbol (to_csv out df (w_fs w1))
              = rmtree (temp_dir symbol) (to_csv out df (w_fs w1))).
  { unfold cleanup.
    change (dir_exists (temp_dir symbol) (to_csv out df (w_fs w1)))
      with (dir_exists (temp_dir symbol) (w_fs w1)).
    now rewrite D. }
  rewrite C. split; [apply dir_exists_rmtree |]. split.
  - intros p B. now apply files_below_rmtree.
  - destruct (below (temp_dir symbol) out) eqn:B.
    + now apply files_below_rmtree.
    + rewrite fs_lookup_rmtree_other by exact B.
      cbn. now rewrite String.eqb_refl.
Qed.

Lemma init_makes_scratch (symbol : string) (w : World) :
  dir_exists (temp_dir symbol) (w_fs (init symbol w)) = true
  /\ fs_files (w_fs (init symbol w)) = fs_files (w_fs w).
Proof.
  unfold init, on_fs. cbn [w_fs]. rewrite dir_exists_mkdir, fs_files_mkdir.
  now rewrite String.eqb_refl.
Qed.




End RunProperties.

(** ** [main] *)

(** X9. When [main] comes to its end, [results] holds the outcome for
    BTCUSDT, then the outcome for ETHUSDT; and each output file holds the
    header line and the rows of the dataset recorded for its symbol: the
    run for ETHUSDT has left the file of BTCUSDT alone. *)
Theorem main_keeps_both_outputs (parse_numeric : string -> option Q)
  (sort_rows : (row -> value) -> list row -> list row) (envs : string -> Env)
  (w w' : World) (results : list (string * option DataFrame)) :
  main parse_numeric sort_rows envs w = (Returned results, w') ->
  exists btc eth,
    results = [("BTCUSDT", btc); ("ETHUSDT", eth)]
    /\ (forall df, btc = Some df ->
          fs_lookup "BTCUSDT_4h_full.csv" (fs_files (w_fs w'))
          = Some (Csv (map VStr (df_columns df) :: df_rows df)))
    /\ (forall df, eth = Some df ->
          fs_lookup "ETHUSDT_4h_full.csv" (fs_files (w_fs w'))
          = Some (Csv (map VStr (df_columns df) :: df_rows df))).
Proof.
  unfold main, pairs. cbn [main_loop].
  destruct (run parse_numeric sort_rows (envs "BTCUSDT") "BTCUSDT" "4h"
              "BTCUSDT_4h_full.csv" w) as [[btc| |] w1] eqn:R1; try discriminate.
  pose proof (collect_frame parse_numeric sort_rows (envs "ETHUSDT") "ETHUSDT"
                "4h" "ETHUSDT_4h_full.csv" (init "ETHUSDT" w1)
                "BTCUSDT_4h_full.csv" eq_refl eq_refl) as F.
  fold (run parse_numeric sort_rows (envs "ETHUSDT") "ETHUSDT" "4h"
            "ETHUSDT_4h_full.csv" w1) in F.
  destruct (run parse_numeric sort_rows (envs "ETHUSDT") "ETHUSDT" "4h"
              "ETHUSDT_4h_full.csv" w1) as [[eth| |] w2] eqn:R2; try discriminate.
  intros [= <- <-]. exists btc, eth. split; [reflexivity |]. split.
  - intros df ->. cbn [snd] in F. rewrite F by discriminate.
    destruct (init_makes_scratch "ETHUSDT" w1) as [_ ->].
    destruct (init_makes_scratch "BTCUSDT" w) as [D _].
    destruct (collect_output _ _ _ _ _ _ _ _ _ D R1) as (_ & _ & O). exact O.
  - intros df ->.
    destruct (init_makes_scratch "ETHUSDT" w1) as [D _].
    destruct (collect_output _ _ _ _ _ _ _ _ _ D R2) as (_ & _ & O). exact O.
Qed.

(** ** More on the merge stage *)

Lemma drop_dups_covers (key : row -> value) (seen : list value)
  (rows : list row) (r : row) :
  In r rows ->
  existsb (value_eqb (key r)) seen = true
  \/ exists r', In r' (drop_dups key seen rows)
                /\ value_eqb (key r') (key r) = true.
Proof.
  revert seen. induction rows as [|x rows IH]; intros seen H; [contradiction |].
  cbn [drop_dups]. destruct H as [<- | H].
  - destruct (existsb (value_eqb (key x)) seen) eqn:E; [now left |].
    right. exists x. split; [now left | apply value_eqb_refl].
  - destruct (existsb (value_eqb (key x)) seen) eqn:E; [now apply IH |].
    destruct (IH (key x :: seen) H) as [S | (r' & I & V)].
    + cbn [existsb] in S. apply orb_true_iff in S. destruct S as [S | S].
      * right. exists x. split; [now left |]. now rewrite value_eqb_sym.
      * now left.
    + right. exists r'. split; [now right | exact V].
Qed.

Lemma drop_dups_length_le (key : row -> value) (seen : list value)
  (rows : list row) :
  (List.length (drop_dups key seen rows) <= List.length rows)%nat.
Proof.
  revert seen. induction rows as [|x rows IH]; intros seen; [apply Nat.le_refl |].
  cbn [drop_dups]. destruct (existsb (value_eqb (key x)) seen); cbn [List.length].
  - specialize (IH seen). lia.
  - specialize (IH (key x :: seen)). lia.
Qed.

Lemma filter_split_length {A : Type} (f : A -> bool) (l : list A) :
  (List.length (filter (fun x => negb (f x)) l) + List.length (filter f l))%nat
  = List.length l.
Proof.
  induction l as [|x l IH]; [reflexivity |].
  cbn [filter]. destruct (f x); cbn [negb List.length]; lia.
Qed.

(** Two lists in strictly ascending order of a key that carry the same
    keys are equal key by key. *)
Lemma strictly_sorted_same_keys (key : row -> value) (l1 : list row) :
  forall l2 : list row,
    StronglySorted (fun a b => value_lt (key a) (key b)) l1 ->
    StronglySorted (fun a b => value_lt (key a) (key b)) l2 ->
    (forall r, In r l1 -> exists r', In r' l2 /\ value_eqb (key r) (key r') = true) ->
    (forall r, In r l2 -> exists r', In r' l1 /\ value_eqb (key r) (key r') = true) ->
    Forall2 (fun a b => value_eqb (key a) (key b) = true) l1 l2.
Proof.
  assert (Lt : forall a b c, value_lt a b -> value_eqb c b = true ->
                             value_lt a c).
  { intros [x| | |] [y| | |] [z| | |]; cbn; try contradiction; try discriminate.
    rewrite Qeq_bool_iff. intros. lra. }
  assert (Irr : forall a b, value_lt a b -> value_eqb b a = true -> False).
  { intros [x| | |] [y| | |]; cbn; try contradiction.
    rewrite Qeq_bool_iff. intros. lra. }
  assert (Asym : forall a b, value_lt a b -> value_lt b a -> False).
  { intros [x| | |] [y| | |]; cbn; try contradiction. intros. lra. }
  induction l1 as [|x l1 IH]; intros l2 S1 S2 H12 H21.
  - destruct l2 as [|y l2]; [constructor |].
    destruct (H21 y (or_introl eq_refl)) as (r' & [] & _).
  - destruct l2 as [|y l2].
    { destruct (H12 x (or_introl eq_refl)) as (r' & [] & _). }
    inversion S1 as [|? ? S1' F1]; inversion S2 as [|? ? S2' F2]; subst.
    rewrite Forall_forall in F1, F2.
    assert (Exy : value_eqb (key x) (key y) = true).
    { destruct (H12 x (or_introl eq_refl)) as (r' & [<- | I] & V); [exact V |].
      destruct (H21 y (or_introl eq_refl)) as (r'' & [<- | I'] & V').
      - now rewrite value_eqb_sym.
      - exfalso. apply (Asym (key x) (key y)).
        + apply (Lt _ (key r'')); [now apply F1 | exact V'].
        + apply (Lt _ (key r')); [now apply F2 | exact V]. }
    constructor; [exact Exy |]. apply IH; trivial.
    + intros r Hr. destruct (H12 r (or_intror Hr)) as (r' & [<- | I] & V).
      * exfalso. apply (Irr (key x) (key r)); [now apply F1 |].
        eapply value_eqb_trans; [exact V |]. now rewrite value_eqb_sym.
      * now exists r'.
    + intros r Hr. destruct (H21 r (or_intror Hr)) as (r' & [<- | I] & V).
      * exfalso. apply (Irr (key y) (key r)); [now apply F2 |].
        eapply value_eqb_trans; [exact V | exact Exy].
      * now exists r'.
Qed.

Section MergeMore.

Variable parse_numeric : string -> option Q.

Lemma deduplicated_strict (sort_rows : (row -> value) -> list row -> list row)
  (now_ms : Z) (dfs : list DataFrame) :
  sorts sort_rows ->
  StronglySorted (fun a b => value_lt (open_time_of a) (open_time_of b))
                 (deduplicated parse_numeric sort_rows now_ms dfs).
Proof.
  intros sort_ok.
  destruct (sort_ok open_time_of (retained parse_numeric now_ms dfs)) as [P S].
  apply (drop_dups_sorted open_time_of _ []) in S.
  revert S. apply StronglySorted_weaken_In.
  intros a b Ha Hb [Hle Hne].
  apply (deduplicated_In _ _ sort_ok), retained_iff in Ha, Hb.
  destruct Ha as [_ (x & Hx & _)], Hb as [_ (y & Hy & _)].
  unfold value_le in Hle. rewrite Hx, Hy in *. cbn in *.
  now apply Qle_neq_lt.
Qed.

Lemma deduplicated_covers (sort_rows : (row -> value) -> list row -> list row)
  (now_ms : Z) (dfs : list DataFrame) (r : row) :
  sorts sort_rows ->
  In r (retained parse_numeric now_ms dfs) ->
  exists r', In r' (deduplicated parse_numeric sort_rows now_ms dfs)
             /\ value_eqb (open_time_of r') (open_time_of r) = true.
Proof.
  intros sort_ok H.
  destruct (sort_ok open_time_of (retained parse_numeric now_ms dfs)) as [P _].
  destruct (drop_dups_covers open_time_of []
              (sort_rows open_time_of (retained parse_numeric now_ms dfs)) r)
    as [S | S]; [eapply Permutation_in; eauto | discriminate S | exact S].
Qed.

Lemma read_all_rows_same_files (fs : FS) (files files' : list string) (r : row) :
  (forall p, In p files <-> In p files') ->
  In r (flat_map df_rows (read_all fs files)) ->
  In r (flat_map df_rows (read_all fs files')).
Proof.
  intros Same H. apply in_flat_map in H. destruct H as (df & Hdf & Hr).
  unfold read_all in Hdf. apply in_flat_map in Hdf. destruct Hdf as (p & Hp & Hdf).
  apply in_flat_map. exists df. split; [| exact Hr].
  unfold read_all. apply in_flat_map. exists p. split; [now apply Same | exact Hdf].
Qed.

(** X10. The [open_time] column of the merged dataset does not depend on
    the order in which the files are listed, nor on how often each is
    listed, nor on the sorting routine: two merges over the same files
    give datasets of the same length whose [open_time] cells are equal row
    by row. *)
Theorem merge_keys_independent_of_file_order
  (sort1 sort2 : (row -> value) -> list row -> list row) (now_ms : Z)
  (files1 files2 : list string) (out1 out2 : string) (fs fs1 fs2 : FS)
  (df1 df2 : DataFrame) :
  sorts sort1 -> sorts sort2 ->
  (forall p, In p files1 <-> In p files2) ->
  merge_csv_files parse_numeric sort1 now_ms files1 out1 fs = (Some df1, fs1) ->
  merge_csv_files parse_numeric sort2 now_ms files2 out2 fs = (Some df2, fs2) ->
  List.length (df_rows df1) = List.length (df_rows df2)
  /\ Forall2 (fun a b => value_eqb (cell (df_columns df1) "open_time" a)
                                   (cell (df_columns df2) "open_time" b) = true)
             (df_rows df1) (df_rows df2).
Proof.
  intros S1 S2 Same M1 M2.
  apply (merge_csv_files_Some _ _ S1) in M1. destruct M1 as (_ & -> & _).
  apply (merge_csv_files_Some _ _ S2) in M2. destruct M2 as (_ & -> & _).
  cbn [df_columns df_rows].
  assert (F : Forall2 (fun a b => value_eqb (open_time_of a) (open_time_of b) = true)
                (deduplicated parse_numeric sort1 now_ms (read_all fs files1))
                (deduplicated parse_numeric sort2 now_ms (read_all fs files2))).
  { assert (Half : forall sa sb fa fb,
               sorts sa -> sorts sb -> (forall p, In p fa <-> In p fb) ->
               forall r, In r (deduplicated parse_numeric sa now_ms (read_all fs fa)) ->
               exists r', In r' (deduplicated parse_numeric sb now_ms (read_all fs fb))
                          /\ value_eqb (open_time_of r) (open_time_of r') = true).
    { intros sa sb fa fb Sa Sb Sab r Hr.
      apply (deduplicated_In _ _ Sa) in Hr.
      assert (Hr' : In r (retained parse_numeric now_ms (read_all fs fb))).
      { apply retained_iff in Hr. apply retained_iff.
        destruct Hr as [(r0 & I & E) V]. split; [| exact V].
        exists r0. split; [| exact E].
        eapply read_all_rows_same_files; eauto. }
      destruct (deduplicated_covers sb now_ms _ r Sb Hr') as (r' & I & V).
      exists r'. split; [exact I |]. now rewrite value_eqb_sym. }
    apply strictly_sorted_same_keys.
    - now apply deduplicated_strict.
    - now apply deduplicated_strict.
    - apply (Half sort1 sort2 files1 files2); trivial.
    - apply (Half sort2 sort1 files2 files1); trivial.
      intros p. symmetry. apply Same. }
  split.
  - rewrite !length_map. eapply Forall2_length; exact F.
  - clear -F. induction F as [|a b la lb Hab _ IH]; cbn [map]; constructor.
    + now rewrite !cell_final_open_time.
    + exact IH.
Qed.

(** X11. Every row of a merged dataset has thirteen cells, one for each
    column, also where the line read was shorter; so has every line of the
    file written, the header line among them. *)
Theorem merged_frame_is_rectangular
  (sort_rows : (row -> value) -> list row -> list row) (now_ms : Z)
  (csv_files : list string) (out : string) (fs fs' : FS) (df : DataFrame) :
  sorts sort_rows ->
  merge_csv_files parse_numeric sort_rows now_ms csv_files out fs = (Some df, fs') ->
  List.length (df_columns df) = 13%nat
  /\ Forall (fun r => List.length r = 13%nat) (df_rows df)
  /\ exists lines,
      fs_lookup out (fs_files fs') = Some (Csv lines)
      /\ Forall (fun l => List.length l = 13%nat) lines.
Proof.
  intros sort_ok M.
  apply (merge_csv_files_Some _ _ sort_ok) in M. destruct M as (_ & -> & ->).
  cbn [df_columns df_rows].
  assert (R : Forall (fun r => List.length r = 13%nat)
                (map final_row (deduplicated parse_numeric sort_rows now_ms
                                  (read_all fs csv_files)))).
  { apply Forall_forall. intros r Hr.
    apply in_map_iff in Hr. destruct Hr as (r1 & <- & Hr).
    apply (deduplicated_In _ _ sort_ok) in Hr.
    pose proof (retained_length parse_numeric now_ms _ (read_all_kline fs csv_files))
      as L.
    rewrite Forall_forall in L. cbn [final_row List.length]. now rewrite (L r1 Hr). }
  split; [reflexivity |]. split; [exact R |].
  eexists. split.
  - cbn. rewrite String.eqb_refl. reflexivity.
  - constructor; [reflexivity | exact R].
Qed.

(** X12. The numbers of the report add up: the rows read are the rows
    written, the rows rejected by the validity mask and the rows removed as
    duplicates; no row is lost or made otherwise. *)
Theorem merge_report_adds_up
  (sort_rows : (row -> value) -> list row -> list row) (now_ms : Z)
  (csv_files : list string) (out : string) (fs fs' : FS) (df : DataFrame) :
  sorts sort_rows ->
  merge_csv_files parse_numeric sort_rows now_ms csv_files out fs = (Some df, fs') ->
  let dfs := read_all fs csv_files in
  initial_rows dfs
  = (List.length (df_rows df)
     + invalid_count parse_numeric now_ms dfs
     + duplicates_removed parse_numeric sort_rows now_ms dfs)%nat.
Proof.
  intros sort_ok M dfs.
  apply (merge_csv_files_Some _ _ sort_ok) in M. destruct M as (Hne & -> & _).
  fold dfs in Hne |- *.
  pose proof (read_all_kline fs csv_files) as K. fold dfs in K.
  destruct (concat_kline dfs Hne K) as [Hc _].
  unfold initial_rows, invalid_count, duplicates_removed.
  rewrite (validated_eq parse_numeric now_ms dfs Hne K).
  rewrite (coerce_open_time_kline parse_numeric _ Hc).
  unfold sort_values, drop_duplicates. cbn [df_columns df_rows].
  fold open_time_of. fold (deduplicated parse_numeric sort_rows now_ms dfs).
  destruct (sort_ok open_time_of (retained parse_numeric now_ms dfs)) as [P _].
  rewrite <- (Permutation_length P), length_map.
  pose proof (drop_dups_length_le open_time_of []
                (sort_rows open_time_of (retained parse_numeric now_ms dfs))) as Le.
  fold (deduplicated parse_numeric sort_rows now_ms dfs) in Le.
  rewrite <- (Permutation_length P) in Le.
  pose proof (filter_split_length (valid_mask columns now_ms)
                (map (coerce_row parse_numeric) (df_rows (concat dfs)))) as Sp.
  fold (retained parse_numeric now_ms dfs) in Sp.
  rewrite length_map in Sp.
  unfold retained in *. cbn [concat df_rows] in *. lia.
Qed.

(** X13. A file that does not parse -- a path that names no file, bytes
    that are no delimited text, a line with more fields than the first
    line and the names allow -- is passed over: the merge gives what it
    gives on the files that parse, both the dataset and the file written.
    (A file of no bytes parses.) *)
Theorem merge_passes_over_unparseable
  (sort_rows : (row -> value) -> list row -> list row) (now_ms : Z)
  (csv_files : list string) (out : string) (fs : FS) :
  merge_csv_files parse_numeric sort_rows now_ms csv_files out fs
  = merge_csv_files parse_numeric sort_rows now_ms
      (filter (fun p => match read_csv fs p columns with
                        | Some _ => true
                        | None => false
                        end) csv_files)
      out fs.
Proof.
  unfold merge_csv_files.
  replace (read_all fs (filter _ csv_files)) with (read_all fs csv_files);
    [reflexivity |].
  unfold read_all. induction csv_files as [|p ps IH]; [reflexivity |].
  cbn [flat_map filter].
  destruct (read_csv fs p columns) eqn:E; [| exact IH].
  cbn [flat_map]. rewrite E. now rewrite IH.
Qed.

End MergeMore.

(** A payload that does not parse and a path that names no file, beside a
    payload that parses: the merge is that of the one payload. *)
Example merge_passes_over_unreadable_files :
  merge_csv_files parse_integer stable_sort clock_2025
    ["temp_BTCUSDT/v.csv"; "temp_BTCUSDT/w.csv"; "temp_BTCUSDT/none.csv"]
    "out.csv" fs_wide
  = merge_csv_files parse_integer stable_sort clock_2025
      ["temp_BTCUSDT/w.csv"] "out.csv" fs_wide.
Proof. reflexivity. Qed.

(** ** The listing *)

Lemma zip_keys_texts (contents : list xml_key) :
  ~ In KeyNoText contents -> zip_keys contents = Some (zip_links_of contents).
Proof.
  unfold zip_links_of, key_texts.
  induction contents as [|k contents IH]; intros H; [reflexivity |].
  assert (H' : ~ In KeyNoText contents) by (intros I; apply H; now right).
  destruct k as [| |s]; cbn [zip_keys flat_map app].
  - now apply IH.
  - destruct H. now left.
  - rewrite (IH H'). cbn [filter]. now destruct (ends_with ".zip" s).
Qed.

Lemma zip_keys_no_text (contents : list xml_key) :
  In KeyNoText contents -> zip_keys contents = None.
Proof.
  induction contents as [|k contents IH]; intros H; [contradiction |].
  destruct k as [| |s]; cbn [zip_keys].
  - destruct H as [H | H]; [discriminate | now apply IH].
  - reflexivity.
  - destruct H as [H | H]; [discriminate |]. now rewrite (IH H).
Qed.

Lemma insert_string_perm (s : string) (l : list string) :
  Permutation (s :: l) (insert_string s l).
Proof.
  induction l as [|t l IH]; cbn; [apply Permutation_refl |].
  destruct (String.leb s t); [apply Permutation_refl |].
  eapply perm_trans; [apply perm_swap | now apply perm_skip].
Qed.

Lemma sorted_perm (l : list string) : Permutation l (sorted l).
Proof.
  unfold sorted. induction l as [|s l IH]; cbn; [constructor |].
  eapply perm_trans; [apply perm_skip, IH | apply insert_string_perm].
Qed.

Lemma insert_string_sorted (s : string) (l : list string) :
  Sorted (fun a b => String.leb a b = true) l ->
  Sorted (fun a b => String.leb a b = true) (insert_string s l).
Proof.
  induction 1 as [|t l Hs IH Ht]; cbn; [repeat constructor |].
  destruct (String.leb s t) eqn:E.
  - constructor; [now constructor | now constructor].
  - constructor; [exact IH |].
    assert (Ts : String.leb t s = true)
      by (destruct (String.leb_total s t); congruence).
    destruct l as [|u l]; cbn; [now constructor |].
    destruct (String.leb s u); constructor; trivial.
    now inversion Ht.
Qed.

Lemma sorted_sorted (l : list string) :
  Sorted (fun a b => String.leb a b = true) (sorted l).
Proof.
  unfold sorted. induction l as [|s l IH]; cbn; [constructor |].
  now apply insert_string_sorted.
Qed.

Lemma zip_links_of_In (contents : list xml_key) (link : string) :
  In link (zip_links_of contents) ->
  exists key, link = (s3_base ++ "/" ++ key)%string
              /\ ends_with ".zip" key = true
              /\ In (KeyText key) contents.
Proof.
  unfold zip_links_of, key_texts. intros H.
  apply in_map_iff in H. destruct H as (key & <- & H).
  apply filter_In in H. destruct H as [H E].
  apply in_flat_map in H. destruct H as (k & Hk & H).
  exists key. split; [reflexivity |]. split; [exact E |].
  destruct k as [| |s]; try contradiction.
  destruct H as [<- | []]. exact Hk.
Qed.

(** X14. A listing that is answered and whose keys all have text: the
    locator returns the links of the keys that end in [.zip] -- those
    found with the namespace, or, when there is none among them, those
    found without it -- each once per listed key, in ascending order of
    the strings.  Keys with another ending (checksum files) give no
    link. *)
Theorem listing_gives_sorted_zip_links (symbol interval : string)
  (qualified plain : list xml_key) (now : datetime) :
  ~ In KeyNoText qualified ->
  (zip_links_of qualified = [] -> ~ In KeyNoText plain) ->
  let found := match zip_links_of qualified with
               | [] => zip_links_of plain
               | links => links
               end in
  exists zip_links,
    get_zip_links symbol interval (ListingDoc qualified plain) now
    = Returned zip_links
    /\ Permutation found zip_links
    /\ Sorted (fun a b => String.leb a b = true) zip_links
    /\ forall link, In link zip_links ->
         exists key, link = (s3_base ++ "/" ++ key)%string
                     /\ ends_with ".zip" key = true
                     /\ In (KeyText key) (qualified ++ plain).
Proof.
  intros Hq Hp found. exists (sorted found).
  split; [| split; [apply sorted_perm | split; [apply sorted_sorted |]]].
  - cbn [get_zip_links]. rewrite (zip_keys_texts _ Hq). unfold found.
    destruct (zip_links_of qualified) as [|l ls]; [| reflexivity].
    now rewrite (zip_keys_texts _ (Hp eq_refl)).
  - intros link H.
    apply (Permutation_in _ (Permutation_sym (sorted_perm found))) in H.
    unfold found in H.
    destruct (zip_links_of qualified) as [|l ls] eqn:E.
    + destruct (zip_links_of_In _ _ H) as (key & H1 & H2 & H3).
      exists key. split; [exact H1 |]. split; [exact H2 |].
      apply in_or_app. now right.
    + rewrite <- E in H.
      destruct (zip_links_of_In _ _ H) as (key & H1 & H2 & H3).
      exists key. split; [exact H1 |]. split; [exact H2 |].
      apply in_or_app. now left.
Qed.

(** X15. A [Key] element without text makes the listing code fail
    ([None] has no [endswith]): the locator then returns what the fallback
    generator returns, as it does when the request itself fails.  This
    holds for such a key among those found with the namespace, and among
    those found without it when these are consulted. *)
Theorem listing_key_without_text_falls_back (symbol interval : string)
  (qualified plain : list xml_key) (now : datetime) :
  In KeyNoText qualified
  \/ (~ In KeyNoText qualified /\ zip_links_of qualified = []
      /\ In KeyNoText plain) ->
  get_zip_links symbol interval (ListingDoc qualified plain) now
  = generate_urls_by_pattern symbol interval now.
Proof.
  intros [H | (Hq & E & Hp)]; cbn [get_zip_links].
  - now rewrite (zip_keys_no_text _ H).
  - rewrite (zip_keys_texts _ Hq), E. now rewrite (zip_keys_no_text _ Hp).
Qed.

(** ** The fallback generator at its bounds *)

Lemma generate_loop_extends (symbol interval : string) (now : datetime)
  (fuel : nat) :
  forall (current : datetime) (zip_links l : list string),
    generate_loop fuel symbol interval now current zip_links = Returned l ->
    exists more, l = zip_links ++ more.
Proof.
  induction fuel as [|fuel IH]; intros current zip_links l; cbn [generate_loop];
    [discriminate |].
  destruct (dt_leb current now).
  - destruct (if month current =? 12
              then make_datetime (year current + 1) 1 1
              else make_datetime (year current) (month current + 1) 1)
      as [current'|]; [| discriminate].
    intros H. apply IH in H. destruct H as (more & ->).
    rewrite <- app_assoc. eauto.
  - intros [= <-]. exists []. now rewrite app_nil_r.
Qed.

(** X16. The fallback generator returns the empty sequence exactly when
    the clock reads a date before 1 January of the symbol's start year. *)
Theorem fallback_empty_iff_before_start (symbol interval : string)
  (now : datetime) :
  valid_datetime now ->
  (generate_urls_by_pattern symbol interval now = Returned []
   <-> year now < start_year symbol).
Proof.
  intros V. pose proof V as (Hy & Hm & _).
  assert (Hs : 1 <= start_year symbol <= 9999).
  { unfold start_year. destruct (String.eqb symbol "BTCUSDT"); lia. }
  unfold generate_urls_by_pattern.
  rewrite make_datetime_first by lia.
  cbn [generate_loop]. rewrite (dt_leb_first_of_month _ _ _ V).
  split.
  - intros H.
    destruct (Z.ltb_spec (start_year symbol) (year now)) as [L | L];
      [| destruct (Z.eqb_spec (start_year symbol) (year now)) as [E | E]];
      [| | lia]; exfalso.
    + cbn [orb year month] in H.
      destruct (if 1 =? 12 then _ else _) as [c|]; [| discriminate].
      apply generate_loop_extends in H. destruct H as (more & H).
      destruct more; discriminate.
    + replace (1 <=? month now) with true in H by (symmetry; apply Z.leb_le; lia).
      cbn [orb andb year month] in H.
      destruct (if 1 =? 12 then _ else _) as [c|]; [| discriminate].
      apply generate_loop_extends in H. destruct H as (more & H).
      destruct more; discriminate.
  - intros L.
    replace (start_year symbol <? year now) with false
      by (symmetry; apply Z.ltb_ge; lia).
    replace (start_year symbol =? year now) with false
      by (symmetry; apply Z.eqb_neq; lia).
    reflexivity.
Qed.

Section GenerateSteps.

Variables symbol interval : string.
Variable now : datetime.
Hypothesis now_valid : valid_datetime now.
Variable y0 : Z.
Hypothesis y0_pos : 1 <= y0.

(** [n] turns of the loop from month number [j], all before the month of
    [now]. *)
Lemma generate_loop_steps (n : nat) :
  forall (j fuel : nat) (zip_links : list string),
    Z.of_nat j + Z.of_nat n < (year now - y0) * 12 + month now ->
    generate_loop (n + fuel) symbol interval now
      (mkDT (fst (month_at y0 j)) (snd (month_at y0 j)) 1 0 0 0 0) zip_links
    = generate_loop fuel symbol interval now
        (mkDT (fst (month_at y0 (j + n))) (snd (month_at y0 (j + n))) 1 0 0 0 0)
        (zip_links
         ++ map (url_of_month symbol interval) (map (month_at y0) (seq j n))).
Proof.
  destruct now_valid as (Hy & Hm & _).
  induction n as [|n IH]; intros j fuel zip_links Hj.
  - cbn [Nat.add seq map]. now rewrite Nat.add_0_r, app_nil_r.
  - cbn [Nat.add generate_loop].
    rewrite (dt_leb_first_of_month _ _ _ now_valid).
    pose proof (month_at_index y0 j) as I.
    pose proof (month_at_bounds y0 j) as B.
    replace (_ || _) with true.
    + cbn [year month].
      assert (N : (if snd (month_at y0 j) =? 12
                   then make_datetime (fst (month_at y0 j) + 1) 1 1
                   else make_datetime (fst (month_at y0 j))
                                      (snd (month_at y0 j) + 1) 1)
                  = Some (mkDT (fst (month_at y0 (S j))) (snd (month_at y0 (S j)))
                               1 0 0 0 0)).
      { rewrite (month_at_succ y0 j).
        destruct (Z.eqb_spec (snd (month_at y0 j)) 12); cbn [fst snd];
          apply make_datetime_first; lia. }
      rewrite N, IH by lia.
      replace (S j + n)%nat with (j + S n)%nat by lia.
      cbn [seq map]. rewrite <- app_assoc. reflexivity.
    + symmetry. apply orb_true_iff.
      destruct (Z.ltb_spec (fst (month_at y0 j)) (year now)); [now left | right].
      apply andb_true_iff. split; [apply Z.eqb_eq | apply Z.leb_le]; nia.
Qed.

End GenerateSteps.

(** X17. In December 9999 the fallback generator does not return: after
    the identifier of that month it asks for [datetime(10000, 1, 1)], which
    Python refuses, and the exception leaves [get_zip_links] too, the
    fallback being its last resort. *)
Theorem fallback_raises_in_last_month (symbol interval : string) (now : datetime) :
  valid_datetime now -> year now = 9999 -> month now = 12 ->
  generate_urls_by_pattern symbol interval now = Raised
  /\ get_zip_links symbol interval ListingFails now = Raised.
Proof.
  intros V Hy Hm.
  assert (Hs : 1 <= start_year symbol <= 2018).
  { unfold start_year. destruct (String.eqb symbol "BTCUSDT"); lia. }
  assert (G : generate_urls_by_pattern symbol interval now = Raised);
    [| split; [exact G | exact G]].
  unfold generate_urls_by_pattern. rewrite make_datetime_first by lia.
  set (n := Z.to_nat ((year now - start_year symbol) * 12 + month now - 1)).
  replace (S (Z.to_nat ((year now - start_year symbol + 1) * 12)))
    with (n + 2)%nat by (unfold n; lia).
  replace (mkDT (start_year symbol) 1 1 0 0 0 0)
    with (mkDT (fst (month_at (start_year symbol) 0))
               (snd (month_at (start_year symbol) 0)) 1 0 0 0 0)
    by (unfold month_at; cbn [fst snd]; f_equal; cbn; lia).
  rewrite (generate_loop_steps symbol interval now V (start_year symbol))
    by (unfold n; lia).
  cbn [Nat.add generate_loop]. rewrite (dt_leb_first_of_month _ _ _ V).
  pose proof (month_at_index (start_year symbol) n) as I.
  pose proof (month_at_bounds (start_year symbol) n) as B.
  assert (E1 : fst (month_at (start_year symbol) n) = 9999) by (unfold n in *; lia).
  assert (E2 : snd (month_at (start_year symbol) n) = 12) by (unfold n in *; lia).
  rewrite E1, E2, Hy, Hm. reflexivity.
Qed.

(** ** The generated identifiers are pairwise distinct *)

Lemma string_append_cancel_l (a b c : string) :
  (a ++ b)%string = (a ++ c)%string -> b = c.
Proof. induction a as [|x a IH]; cbn; [auto | intros [= H]; auto]. Qed.

Lemma string_append_split (a : string) :
  forall a' b b' : string,
    (a ++ b)%string = (a' ++ b')%string ->
    String.length a = String.length a' ->
    a = a' /\ b = b'.
Proof.
  induction a as [|x a IH]; intros [|x' a'] b b'; cbn; try discriminate.
  - auto.
  - intros [= -> H] [= L]. destruct (IH _ _ _ H L) as [-> ->]. auto.
Qed.

Lemma string_append_split_suffix (a a' b b' : string) :
  (a ++ b)%string = (a' ++ b')%string ->
  String.length b = String.length b' ->
  a = a' /\ b = b'.
Proof.
  intros H L. apply string_append_split; [exact H |].
  apply (f_equal String.length) in H. rewrite !string_length_append in H. lia.
Qed.

Lemma str_of_Z_inj (z z' : Z) : str_of_Z z = str_of_Z z' -> z = z'.
Proof.
  assert (P : forall n, NilZero.int_of_string (str_of_Z n) = Some (Z.to_int n)).
  { intros n. unfold str_of_Z. apply NilZero.isi.
    - destruct n as [|p|p]; cbn; try discriminate.
      intros [= H]. now apply DecimalPos.Unsigned.to_uint_nonnil in H.
    - destruct n as [|p|p]; cbn; try discriminate.
      intros [= H]. now apply DecimalPos.Unsigned.to_uint_nonnil in H. }
  intros H. apply DecimalZ.to_int_inj.
  pose proof (P z) as Pz. rewrite H, P in Pz. congruence.
Qed.

Lemma month_cases (m : Z) :
  1 <= m <= 12 ->
  m = 1 \/ m = 2 \/ m = 3 \/ m = 4 \/ m = 5 \/ m = 6
  \/ m = 7 \/ m = 8 \/ m = 9 \/ m = 10 \/ m = 11 \/ m = 12.
Proof. lia. Qed.

Lemma month_text_length (m : Z) :
  1 <= m <= 12 -> String.length (zfill2 (str_of_Z m)) = 2%nat.
Proof.
  intros H. apply month_cases in H.
  repeat (destruct H as [-> | H]; [reflexivity |]). now subst m.
Qed.

Lemma month_text_inj (m m' : Z) :
  1 <= m <= 12 -> 1 <= m' <= 12 ->
  zfill2 (str_of_Z m) = zfill2 (str_of_Z m') -> m = m'.
Proof.
  intros H H'. apply month_cases in H. apply month_cases in H'.
  repeat (destruct H as [-> | H]);
    repeat (destruct H' as [-> | H']); subst;
    intros E; solve [reflexivity | discriminate E].
Qed.

Lemma month_url_inj (symbol interval : string) (y m y' m' : Z) :
  1 <= m <= 12 -> 1 <= m' <= 12 ->
  month_url symbol interval y m = month_url symbol interval y' m' ->
  y = y' /\ m = m'.
Proof.
  intros Hm Hm' H. unfold month_url in H. cbv zeta in H.
  repeat apply string_append_cancel_l in H.
  apply string_append_split_suffix in H.
  - destruct H as [Hy H]. apply str_of_Z_inj in Hy.
    apply (string_append_cancel_l "-") in H.
    apply string_append_split in H.
    + destruct H as [H _]. split; [exact Hy | now apply month_text_inj].
    + now rewrite !month_text_length.
  - cbn [String.append String.length].
    now rewrite !string_length_append, !month_text_length.
Qed.

(** X18. From the start year on, the identifiers the fallback generator
    returns are pairwise distinct: no month is asked for twice. *)
Theorem fallback_links_are_distinct (symbol interval : string) (now : datetime) :
  valid_datetime now ->
  start_year symbol <= year now ->
  ~ (year now = 9999 /\ month now = 12) ->
  exists zip_links,
    generate_urls_by_pattern symbol interval now = Returned zip_links
    /\ List.length zip_links
       = Z.to_nat ((year now - start_year symbol) * 12 + month now)
    /\ NoDup zip_links.
Proof.
  intros V Hstart Hlast. pose proof V as (Hy & Hm & _).
  assert (Hy0 : 1 <= start_year symbol).
  { unfold start_year. destruct (String.eqb symbol "BTCUSDT"); lia. }
  exists (map (url_of_month symbol interval)
              (months_from (start_year symbol)
                 (Z.to_nat ((year now - start_year symbol) * 12 + month now)))).
  split; [| split].
  - unfold generate_urls_by_pattern. rewrite make_datetime_first by lia.
    replace (mkDT (start_year symbol) 1 1 0 0 0 0)
      with (mkDT (fst (month_at (start_year symbol) 0))
                 (snd (month_at (start_year symbol) 0)) 1 0 0 0 0)
      by (unfold month_at; cbn [fst snd]; f_equal; cbn; lia).
    rewrite (generate_loop_months symbol interval now V Hlast (start_year symbol)
               (Z.to_nat ((year now - start_year symbol) * 12 + month now)));
      [reflexivity | exact Hy0 | lia | lia].
  - unfold months_from. now rewrite !length_map, length_seq.
  - apply Finite.Injective_map_NoDup_in; [| apply months_from_NoDup].
    intros [y m] [y' m'] I I' E.
    apply months_from_In in I, I'.
    unfold url_of_month in E. cbn [fst snd] in E.
    apply month_url_inj in E; [| tauto | tauto].
    destruct E as [-> ->]. reflexivity.
Qed.

(** ** The further properties at concrete inputs *)


(** A payload stored under an absolute name: the path returned is the
    name, where nothing is; the payload lies below the scratch directory. *)
Example fetch_absolute_member_name :
  let (csv_file, w) :=
    download_and_extract net_abs_name "temp_ETHUSDT" "u" 3 w_empty in
  csv_file = Some "/abs/k.csv"
  /\ fs_lookup "/abs/k.csv" (fs_files (w_fs w)) = None
  /\ fs_lookup "temp_ETHUSDT/abs/k.csv" (fs_files (w_fs w))
     = Some (Csv [kline t_1 "x"])
  /\ dir_exists "temp_ETHUSDT/abs" (w_fs w) = true.
Proof. cbn. repeat split. Qed.

(** The run on that archive: the merge finds no file at the path returned,
    [collect] returns [None] after [cleanup], and no output file is
    written. *)
Example collect_absolute_member_name :
  let (result, w) := run parse_integer stable_sort env_abs_name
                         "ETHUSDT" "4h" "ETHUSDT_4h_full.csv" w_empty in
  result = Returned None
  /\ dir_exists "temp_ETHUSDT" (w_fs w) = false
  /\ fs_lookup "temp_ETHUSDT/abs/k.csv" (fs_files (w_fs w)) = None
  /\ fs_lookup "ETHUSDT_4h_full.csv" (fs_files (w_fs w)) = None.
Proof. cbn. repeat split. Qed.

(** Two members of one name: the name is found at the first, the content
    extracted is that of the last. *)
Example fetch_last_member_of_a_name :
  let (csv_file, w) :=
    download_and_extract net_twice "temp_BTCUSDT" "u" 3 w_empty in
  csv_file = Some "temp_BTCUSDT/k.csv"
  /\ fs_lookup "temp_BTCUSDT/k.csv" (fs_files (w_fs w))
     = Some (Csv [kline t_1 "last"]).
Proof. cbn. repeat split. Qed.


(** A server error, then 404: two requests, one pause, [None]. *)
Lemma fetch_stops_at_terminal_answer_witness :
  exists t,
    download_and_extract net_error_then_404 "temp_BTCUSDT" "u" 3 w_empty
    = (None, mkWorld (w_fs w_empty) (w_trace w_empty ++ t))
    /\ requests t = 2%nat
    /\ pauses t = [2000].
Proof.
  apply (fetch_stops_at_terminal_answer net_error_then_404 "temp_BTCUSDT" "u" 3 1
           w_empty).
  - lia.
  - intros i Hi. destruct i as [|i]; [reflexivity | lia].
  - reflexivity.
Defined.

(** The scratch directory of BTCUSDT removed, a file of the user's kept. *)
Lemma cleanup_removes_scratch_only_witness :
  fs_lookup "temp_BTCUSDT/k.csv" (fs_files (cleanup "BTCUSDT" fs_half)) = None
  /\ fs_lookup "notes.txt"
       (fs_files (cleanup "BTCUSDT" (write_file "notes.txt" Garbage fs_half)))
     = Some Garbage.
Proof.
  split.
  - destruct (cleanup_removes_scratch_only "BTCUSDT" fs_half "temp_BTCUSDT/k.csv")
      as (_ & B & _).
    apply B; reflexivity.
  - destruct (cleanup_removes_scratch_only "BTCUSDT"
                (write_file "notes.txt" Garbage fs_half) "notes.txt")
      as (_ & _ & K & _).
    rewrite K; reflexivity.
Defined.





Lemma main_demo :
  main parse_integer stable_sort envs_demo w_empty
  = (Returned [("BTCUSDT", None); ("ETHUSDT", Some merged_eth)],
     snd (main parse_integer stable_sort envs_demo w_empty)).
Proof. vm_compute. reflexivity. Qed.

(** [main] with nothing listed for BTCUSDT and one archive for ETHUSDT. *)
Lemma main_keeps_both_outputs_witness :
  fs_lookup "ETHUSDT_4h_full.csv"
    (fs_files (w_fs (snd (main parse_integer stable_sort envs_demo w_empty))))
  = Some (Csv (map VStr (df_columns merged_eth) :: df_rows merged_eth)).
Proof.
  destruct (main_keeps_both_outputs parse_integer stable_sort envs_demo w_empty _ _
              main_demo) as (btc & eth & E & _ & H).
  apply H. now injection E as _ <-.
Defined.

Lemma merge_dup_again_run :
  merge_csv_files parse_integer reversing_sort clock_2025 files_dup_again
                  "again.csv" fs_dup
  = (Some merged_dup_again, to_csv "again.csv" merged_dup_again fs_dup).
Proof. reflexivity. Qed.

(** The overlapping payloads, merged in two orders by two sorts: the same
    three instants, though the row at [t_2] differs. *)
Lemma merge_keys_independent_of_file_order_witness :
  List.length (df_rows merged_dup) = List.length (df_rows merged_dup_again)
  /\ Forall2 (fun a b => value_eqb (cell (df_columns merged_dup) "open_time" a)
                                   (cell (df_columns merged_dup_again) "open_time" b)
                         = true)
             (df_rows merged_dup) (df_rows merged_dup_again).
Proof.
  apply (merge_keys_independent_of_file_order parse_integer stable_sort
           reversing_sort clock_2025 files_dup files_dup_again "out.csv"
           "again.csv" fs_dup (to_csv "out.csv" merged_dup fs_dup)
           (to_csv "again.csv" merged_dup_again fs_dup)
           merged_dup merged_dup_again
           stable_sort_sorts reversing_sort_sorts).
  - intros p. unfold files_dup, files_dup_again. cbn. tauto.
  - exact merge_dup_run.
  - exact merge_dup_again_run.
Defined.

(** The merged overlapping payloads: three rows of thirteen cells. *)
Lemma merged_frame_is_rectangular_witness :
  List.length (df_columns merged_dup) = 13%nat
  /\ Forall (fun r => List.length r = 13%nat) (df_rows merged_dup).
Proof.
  destruct (merged_frame_is_rectangular parse_integer stable_sort clock_2025
              files_dup "out.csv" fs_dup _ merged_dup stable_sort_sorts
              merge_dup_run) as (C & R & _).
  split; [exact C | exact R].
Defined.

(** Five rows read, three written, none rejected, two duplicates. *)
Lemma merge_report_adds_up_witness :
  initial_rows (read_all fs_dup files_dup)
  = (List.length (df_rows merged_dup)
     + invalid_count parse_integer clock_2025 (read_all fs_dup files_dup)
     + duplicates_removed parse_integer stable_sort clock_2025
         (read_all fs_dup files_dup))%nat.
Proof.
  apply (merge_report_adds_up parse_integer stable_sort clock_2025 files_dup
           "out.csv" fs_dup _ merged_dup stable_sort_sorts merge_dup_run).
Defined.

(** A listing with two archives, a checksum and an entry without key. *)
Lemma listing_gives_sorted_zip_links_witness :
  exists zip_links,
    get_zip_links "ETHUSDT" "4h" (ListingDoc listing_keys []) now_2025
    = Returned zip_links
    /\ Permutation (zip_links_of listing_keys) zip_links
    /\ Sorted (fun a b => String.leb a b = true) zip_links.
Proof.
  destruct (listing_gives_sorted_zip_links "ETHUSDT" "4h" listing_keys []
              now_2025) as (l & G & P & S & _).
  - unfold listing_keys. cbn. intros [H | [H | [H | [H | []]]]]; discriminate.
  - discriminate.
  - exists l. split; [exact G |]. split; [exact P | exact S].
Defined.

(** A key without text among the keys: the generated links come back. *)
Lemma listing_key_without_text_falls_back_witness :
  get_zip_links "ETHUSDT" "4h" (ListingDoc (KeyNoText :: listing_keys) []) now_2025
  = generate_urls_by_pattern "ETHUSDT" "4h" now_2025.
Proof.
  apply listing_key_without_text_falls_back. left. now left.
Defined.

Lemma now_2016_valid : valid_datetime now_2016.
Proof. unfold valid_datetime, now_2016. cbn. lia. Qed.

Lemma now_2025_valid : valid_datetime now_2025.
Proof. unfold valid_datetime, now_2025. cbn. lia. Qed.

Lemma now_9999_valid : valid_datetime now_9999.
Proof. unfold valid_datetime, now_9999. cbn. lia. Qed.

(** June 2016 lies before the start year of ETHUSDT. *)
Lemma fallback_empty_iff_before_start_witness :
  generate_urls_by_pattern "ETHUSDT" "4h" now_2016 = Returned [].
Proof.
  apply (fallback_empty_iff_before_start "ETHUSDT" "4h" now_2016 now_2016_valid).
  cbn. lia.
Defined.

(** The last second of the year 9999. *)
Lemma fallback_raises_in_last_month_witness :
  generate_urls_by_pattern "BTCUSDT" "4h" now_9999 = Raised
  /\ get_zip_links "BTCUSDT" "4h" ListingFails now_9999 = Raised.
Proof.
  apply (fallback_raises_in_last_month "BTCUSDT" "4h" now_9999 now_9999_valid);
    reflexivity.
Defined.

(** November 2025: 107 identifiers for BTCUSDT, no two alike. *)
Lemma fallback_links_are_distinct_witness :
  exists zip_links,
    generate_urls_by_pattern "BTCUSDT" "4h" now_2025 = Returned zip_links
    /\ List.length zip_links = 107%nat
    /\ NoDup zip_links.
Proof.
  apply (fallback_links_are_distinct "BTCUSDT" "4h" now_2025 now_2025_valid).
  - cbn. lia.
  - cbn. lia.
Defined.

(** ** Payloads between fetch and merge *)



(** Two archives with a member of the same name: both fetches succeed and
    give the same path, which at merge time holds the second payload. *)
Example fetch_all_same_member_name :
  let out := fetch_all net_same_name "BTCUSDT" ["first.zip"; "second.zip"] [] []
                       w_empty in
  fst (fst out) = ["temp_BTCUSDT/k.csv"; "temp_BTCUSDT/k.csv"]
  /\ fs_lookup "temp_BTCUSDT/k.csv" (fs_files (w_fs (snd out)))
     = Some (Csv [kline t_2 "second"]).
Proof. split; reflexivity. Qed.

(** ** Payloads that agree where they overlap *)

Lemma Forall2_eq_In {A : Type} (R : A -> A -> Prop) (l1 l2 : list A) :
  Forall2 R l1 l2 ->
  (forall a b, In a l1 -> In b l2 -> R a b -> a = b) ->
  l1 = l2.
Proof.
  induction 1 as [|a b l1 l2 Hab _ IH]; intros H; [reflexivity |].
  f_equal.
  - apply H; [now left | now left | exact Hab].
  - apply IH. intros x y Hx Hy. apply H; now right.
Qed.

Lemma retained_same_files (parse_numeric : string -> option Q) (now_ms : Z)
  (fs : FS) (files files' : list string) (r : row) :
  (forall p, In p files <-> In p files') ->
  In r (retained parse_numeric now_ms (read_all fs files)) ->
  In r (retained parse_numeric now_ms (read_all fs files')).
Proof.
  intros Same Hr. apply retained_iff in Hr. apply retained_iff.
  destruct Hr as [(r0 & I & E) V]. split; [| exact V].
  exists r0. split; [| exact E].
  eapply read_all_rows_same_files; eauto.
Qed.

(** X20. Where the payloads agree on the rows they share -- any two
    retained rows with one [open_time] are the same row -- the merged
    dataset depends neither on the sorting routine nor on the order in
    which the files are listed or on how often: two merges over the same
    files return the same dataset, and write the same file when given the
    same name. *)
Theorem merge_same_when_overlaps_agree (parse_numeric : string -> option Q)
  (sort1 sort2 : (row -> value) -> list row -> list row) (now_ms : Z)
  (files1 files2 : list string) (out1 out2 : string) (fs fs1 fs2 : FS)
  (df1 df2 : DataFrame) :
  sorts sort1 -> sorts sort2 ->
  (forall p, In p files1 <-> In p files2) ->
  (forall a b,
     In a (retained parse_numeric now_ms (read_all fs files1)) ->
     In b (retained parse_numeric now_ms (read_all fs files1)) ->
     value_eqb (open_time_of a) (open_time_of b) = true -> a = b) ->
  merge_csv_files parse_numeric sort1 now_ms files1 out1 fs = (Some df1, fs1) ->
  merge_csv_files parse_numeric sort2 now_ms files2 out2 fs = (Some df2, fs2) ->
  df1 = df2 /\ (out1 = out2 -> fs1 = fs2).
Proof.
  intros S1 S2 Same Agree M1 M2.
  apply (merge_csv_files_Some _ _ S1) in M1. destruct M1 as (_ & E1 & F1).
  apply (merge_csv_files_Some _ _ S2) in M2. destruct M2 as (_ & E2 & F2).
  assert (Same' : forall p, In p files2 <-> In p files1)
    by (intros p; symmetry; apply Same).
  assert (D : deduplicated parse_numeric sort1 now_ms (read_all fs files1)
              = deduplicated parse_numeric sort2 now_ms (read_all fs files2)).
  { apply (Forall2_eq_In
             (fun a b => value_eqb (open_time_of a) (open_time_of b) = true)).
    - apply strictly_sorted_same_keys.
      + now apply deduplicated_strict.
      + now apply deduplicated_strict.
      + intros r Hr. apply (deduplicated_In _ _ S1) in Hr.
        apply (retained_same_files _ _ _ _ _ _ Same) in Hr.
        destruct (deduplicated_covers parse_numeric sort2 now_ms _ r S2 Hr)
          as (r' & I & V).
        exists r'. split; [exact I |]. now rewrite value_eqb_sym.
      + intros r Hr. apply (deduplicated_In _ _ S2) in Hr.
        apply (retained_same_files _ _ _ _ _ _ Same') in Hr.
        destruct (deduplicated_covers parse_numeric sort1 now_ms _ r S1 Hr)
          as (r' & I & V).
        exists r'. split; [exact I |]. now rewrite value_eqb_sym.
    - intros a b Ha Hb V. apply Agree; [| | exact V].
      + now apply (deduplicated_In _ _ S1) in Ha.
      + apply (deduplicated_In _ _ S2) in Hb.
        now apply (retained_same_files _ _ _ _ _ _ Same') in Hb. }
  assert (E : df1 = df2) by (rewrite E1, E2, D; reflexivity).
  split; [exact E |]. intros ->. now rewrite F1, F2, E.
Qed.

Lemma merge_overlap_run :
  merge_csv_files parse_integer stable_sort clock_2025 files_overlap
                  "out.csv" fs_overlap
  = (Some merged_overlap, to_csv "out.csv" merged_overlap fs_overlap).
Proof. reflexivity. Qed.

(** Two payloads that share the row at [t_2], merged in two orders by two
    sorting routines: the same dataset and the same file. *)
Lemma merge_same_when_overlaps_agree_witness :
  let again :=
    merge_frames parse_integer reversing_sort clock_2025
                 (read_all fs_overlap files_overlap_again) in
  merged_overlap = again
  /\ to_csv "out.csv" merged_overlap fs_overlap
     = to_csv "out.csv" again fs_overlap.
Proof.
  intros again.
  destruct (merge_same_when_overlaps_agree parse_integer stable_sort
              reversing_sort clock_2025 files_overlap files_overlap_again
              "out.csv" "out.csv" fs_overlap
              (to_csv "out.csv" merged_overlap fs_overlap)
              (to_csv "out.csv" again fs_overlap)
              merged_overlap again
              stable_sort_sorts reversing_sort_sorts) as [E F].
  - intros p. unfold files_overlap, files_overlap_again. cbn. tauto.
  - intros a b Ha Hb. vm_compute in Ha, Hb.
    destruct Ha as [<- | [<- | [<- | [<- | []]]]];
      destruct Hb as [<- | [<- | [<- | [<- | []]]]];
      intros V; solve [reflexivity | vm_compute in V; discriminate V].
  - exact merge_overlap_run.
  - reflexivity.
  - split; [exact E | exact (F eq_refl)].
Defined.
